(** * lasier: the asyncio circuit breaker

    A shallow embedding of [lasier/circuit_breaker/asyncio.py] and the
    properties of its guarded-call protocol.

    The breaker keeps no state of its own: the open flag and the two
    counters live in a shared cache.  A coroutine of the source becomes a
    function from the state of the world (cache contents plus the
    chronological list of calls made on the collaborators) to an outcome
    (a returned value or a raised exception) and a new state.

    - The cache follows its contract and its calls succeed; what it holds
      under a key is an integer together with the time-to-live last
      assigned to that key.  There is no clock: expiry, like any write of
      another caller, is something that happens to the cache between two
      calls, and the protected operation is an arbitrary coroutine over
      the same state.
    - Each cache call is one step.  Awaitables that the source gathers
      run one after the other in argument order; the theorems about
      gathered calls say what does not depend on that order.
    - The policy is a record of its keys and its pure decisions; the
      hooks and [log_increase_failures] only leave a mark in the trace. *)

From Stdlib Require Import ZArith List.
From stdpp Require Import gmap strings list fin_maps.

Local Open Scope Z_scope.

(** ** Data *)

(** A cache key as the engine hands it over: a [str] or [None]
    ([rule.request_cache_key] is [Optional[str]]). *)
Abbreviation pykey := (option string).

(** [lasier.types.Timeout]: a number of seconds, or [None] for a key that
    never expires.  The engine only passes timeouts through. *)
Definition Timeout : Type := option Z.

(** What the cache holds under a key: an integer and the time-to-live that
    was last assigned to it. *)
Record entry : Type := Entry { value : Z; ttl : Timeout }.

(** Calls on the collaborators of the engine, in the order they are made. *)
Inductive event : Type :=
| CacheGet (k : pykey)
| CacheSet (k : pykey) (v : Z) (t : Timeout)
| CacheDelete (k : pykey)
| CacheIncr (k : pykey)
| CacheExpire (k : pykey) (t : Timeout)
| CacheAdd (k : pykey) (v : Z) (t : Timeout)
| LogIncreaseFailures (total_failures total_requests : Z)
| NotifyOpenCircuit
| NotifyMaxFailuresExceeded.

Record state : Type := State { store : gmap pykey entry; trace : list event }.

(** ** The cache contract *)

Module Store.

(** The key-value store is a collaborator of the engine and not part of
    this file.  Each function below is one row of the contract table of
    section 6, on the contents of the cache. *)

(** Modelled from the spec: [get(key)] gives the stored value, or the
    absent result for a missing key. *)
Definition get (k : pykey) (m : gmap pykey entry) : option Z :=
  value <$> m !! k.

(** Modelled from the spec: [set(key, value, ttl)] is an unconditional
    write with expiry. *)
Definition set (k : pykey) (v : Z) (t : Timeout) (m : gmap pykey entry)
  : gmap pykey entry :=
  <[k := Entry v t]> m.

(** Modelled from the spec: [delete(key)] removes the key; no-op if
    absent. *)
Definition delete (k : pykey) (m : gmap pykey entry) : gmap pykey entry :=
  base.delete k m.

(** Modelled from the spec: [incr(key)] is an integer increment; it
    creates the key at 1, with no TTL, if absent.  The new value is
    returned. *)
Definition incr (k : pykey) (m : gmap pykey entry) : Z * gmap pykey entry :=
  match m !! k with
  | Some e => (value e + 1, <[k := Entry (value e + 1) (ttl e)]> m)
  | None => (1, <[k := Entry 1 None]> m)
  end.

(** Modelled from the spec: [expire(key, ttl)] sets or refreshes the TTL
    of an existing key. *)
Definition expire (k : pykey) (t : Timeout) (m : gmap pykey entry)
  : gmap pykey entry :=
  match m !! k with
  | Some e => <[k := Entry (value e) t]> m
  | None => m
  end.

(** Modelled from the spec: [add(key, value, ttl)] is set-if-absent with
    expiry, a no-op if the key exists. *)
Definition add (k : pykey) (v : Z) (t : Timeout) (m : gmap pykey entry)
  : gmap pykey entry :=
  match m !! k with
  | Some _ => m
  | None => <[k := Entry v t]> m
  end.

End Store.

(** The effect of one recorded call on the contents of the cache. *)
Definition apply_event (ev : event) (m : gmap pykey entry) : gmap pykey entry :=
  match ev with
  | CacheSet k v t => Store.set k v t m
  | CacheDelete k => Store.delete k m
  | CacheIncr k => snd (Store.incr k m)
  | CacheExpire k t => Store.expire k t m
  | CacheAdd k v t => Store.add k v t m
  | _ => m
  end.

Definition replay (evs : list event) (m : gmap pykey entry) : gmap pykey entry :=
  fold_left (fun acc ev => apply_event ev acc) evs m.

(** The counter under a key as the engine reads it: a missing key is 0. *)
Definition counter (k : pykey) (m : gmap pykey entry) : Z :=
  default 0 (Store.get k m).

(** ** Python truth values *)

(** Truth value of what [cache.get] returns: [None] and [0] are falsy. *)
Definition truthy (o : option Z) : bool :=
  match o with
  | Some v => negb (v =? 0)
  | None => false
  end.

(** [o or d] for an integer default [d]. *)
Definition py_or (o : option Z) (d : Z) : Z :=
  match o with
  | Some v => if v =? 0 then d else v
  | None => d
  end.

(** Truth value of an [Optional[str]]: [None] and the empty string are
    falsy. *)
Definition key_truthy (k : option string) : bool :=
  match k with
  | Some EmptyString => false
  | Some _ => true
  | None => false
  end.

(** ** Coroutines *)

Inductive outcome (E A : Type) : Type :=
| Return (a : A)
| Raise (e : E).
Arguments Return {E A} a.
Arguments Raise {E A} e.

Definition M (E A : Type) : Type := state -> outcome E A * state.

Definition ret {E A} (a : A) : M E A := fun s => (Return a, s).

Definition raise {E A} (e : E) : M E A := fun s => (Raise e, s).

Definition bind {E A B} (c : M E A) (k : A -> M E B) : M E B :=
  fun s =>
    match c s with
    | (Return a, s') => k a s'
    | (Raise e, s') => (Raise e, s')
    end.

Notation "x <- c ;; k" := (bind c (fun x => k))
  (at level 100, c at next level, right associativity).
Notation "c ;; k" := (bind c (fun _ => k))
  (at level 100, right associativity).

(** Record a call on a collaborator. *)
Definition emit {E} (ev : event) : M E unit :=
  fun s => (Return tt, State (store s) (trace s ++ [ev])).

(** [asyncio.gather] of two awaitables: both run to completion and the
    pair of results is returned.  The model runs them in argument order. *)
Definition gather {E A B} (a : M E A) (b : M E B) : M E (A * B) :=
  x <- a ;; y <- b ;; ret (x, y).

Section Engine.

(** Exceptions of the protected operation and of the breaker. *)
Context {exc : Type}.

Abbreviation M := (M exc).

(** *** [self.cache] *)

Definition cache_get (k : pykey) : M (option Z) :=
  fun s => (Return (Store.get k (store s)),
            State (store s) (trace s ++ [CacheGet k])).

Definition cache_set (k : pykey) (v : Z) (t : Timeout) : M unit :=
  fun s => (Return tt,
            State (Store.set k v t (store s)) (trace s ++ [CacheSet k v t])).

Definition cache_delete (k : pykey) : M unit :=
  fun s => (Return tt,
            State (Store.delete k (store s)) (trace s ++ [CacheDelete k])).

Definition cache_incr (k : pykey) : M Z :=
  fun s => (Return (fst (Store.incr k (store s))),
            State (snd (Store.incr k (store s))) (trace s ++ [CacheIncr k])).

Definition cache_expire (k : pykey) (t : Timeout) : M unit :=
  fun s => (Return tt,
            State (Store.expire k t (store s)) (trace s ++ [CacheExpire k t])).

Definition cache_add (k : pykey) (v : Z) (t : Timeout) : M unit :=
  fun s => (Return tt,
            State (Store.add k v t (store s)) (trace s ++ [CacheAdd k v t])).

(** *** [self.rule] *)

(** The policy: its two keys and its decisions.  The decisions are pure;
    [log_increase_failures] is an observer and is recorded in the
    trace. *)
Record Rule : Type := {
  failure_cache_key : string;
  request_cache_key : option string;
  should_open_circuit : Z -> Z -> bool;
  should_increase_failure_count : bool;
  should_increase_request_count : bool
}.

Definition log_increase_failures (total_failures total_requests : Z) : M unit :=
  emit (LogIncreaseFailures total_failures total_requests).

(** *** [CircuitBreakerBase] *)

(** The attributes set up by the constructor of the base class. *)
Record CircuitBreaker : Type := {
  rule : Rule;
  circuit_cache_key : string;
  circuit_timeout : Timeout;
  failure_timeout : Timeout;
  failure_exception : exc;
  catch_exceptions : exc -> bool
}.

(** Modelled from the spec: [_is_catchable_exception] is defined in the
    base class, which is not part of this file.  An exit without an
    exception is never a failure; an exception counts when the
    breaker's filter of catchable kinds accepts it. *)
Definition _is_catchable_exception (cb : CircuitBreaker) (exc_type : option exc)
  : bool :=
  match exc_type with
  | Some e => catch_exceptions cb e
  | None => false
  end.

(** Modelled from the spec: the "circuit opened" notification hook of
    the base class, a callback whose result is not used. *)
Definition _notify_open_circuit : M unit := emit NotifyOpenCircuit.

(** Modelled from the spec: the "failure threshold exceeded"
    notification hook of the base class. *)
Definition _notify_max_failures_exceeded : M unit :=
  emit NotifyMaxFailuresExceeded.

(** *** [CircuitBreaker] *)

Variable cb : CircuitBreaker.

(** [return await self.cache.get(self.circuit_cache_key) or False].
    Every caller branches on the result, so the model returns its truth
    value. *)
Definition is_circuit_open : M bool :=
  v <- cache_get (Some (circuit_cache_key cb)) ;;
  ret (truthy v).

Definition get_total_failures : M Z :=
  v <- cache_get (Some (failure_cache_key (rule cb))) ;;
  ret (py_or v 0).

Definition get_total_requests : M Z :=
  if negb (key_truthy (request_cache_key (rule cb))) then ret 0
  else
    v <- cache_get (request_cache_key (rule cb)) ;;
    ret (py_or v 0).

Definition _incr (k : pykey) (timeout : Timeout) : M Z :=
  v <- cache_incr k ;;
  (if v =? 1 then cache_expire k timeout else ret tt) ;;
  ret v.

Definition open_circuit : M unit :=
  cache_set (Some (circuit_cache_key cb)) 1 (circuit_timeout cb) ;;
  match request_cache_key (rule cb) with
  | Some rk =>
      gather (cache_delete (Some (failure_cache_key (rule cb))))
             (cache_delete (Some rk)) ;;
      ret tt
  | None => cache_delete (Some (failure_cache_key (rule cb)))
  end ;;
  _notify_open_circuit.

Definition _increase_failure_count : M unit :=
  o <- is_circuit_open ;;
  if o || negb (should_increase_failure_count (rule cb)) then ret tt
  else
    p <- gather (_incr (Some (failure_cache_key (rule cb))) (failure_timeout cb))
                get_total_requests ;;
    log_increase_failures (fst p) (snd p).

Definition _increase_request_count : M unit :=
  o <- is_circuit_open ;;
  if o || negb (should_increase_request_count (rule cb)) then ret tt
  else
    _incr (request_cache_key (rule cb)) (failure_timeout cb) ;;
    if should_increase_failure_count (rule cb)
    then cache_add (Some (failure_cache_key (rule cb))) 0 (failure_timeout cb)
    else ret tt.

(** [__aenter__] returns [self]; the model returns unit. *)
Definition __aenter__ : M unit :=
  o <- is_circuit_open ;;
  if o then raise (failure_exception cb) else ret tt.

(** [exc_type] is [None] when the block was left without an exception.
    The method falls off its end, so it returns [None]: it never asks
    for the exception to be suppressed. *)
Definition __aexit__ (exc_type : option exc) : M unit :=
  _increase_request_count ;;
  if _is_catchable_exception cb exc_type then
    _increase_failure_count ;;
    p <- gather get_total_failures get_total_requests ;;
    if should_open_circuit (rule cb) (fst p) (snd p) then
      open_circuit ;;
      _notify_max_failures_exceeded ;;
      raise (failure_exception cb)
    else ret tt
  else ret tt.

(** [async with self: body].  When [__aenter__] raises, neither the body
    nor [__aexit__] runs.  Otherwise the body runs and [__aexit__] is
    called with the exception of the body, if any; an exception raised
    by [__aexit__] replaces the outcome of the body, and since
    [__aexit__] returns a falsy value an exception of the body is raised
    again after it. *)
Definition async_with {R} (body : M R) : M R :=
  fun s =>
    match __aenter__ s with
    | (Raise e, s1) => (Raise e, s1)
    | (Return _, s1) =>
        match body s1 with
        | (Return r, s2) =>
            match __aexit__ None s2 with
            | (Return _, s3) => (Return r, s3)
            | (Raise e', s3) => (Raise e', s3)
            end
        | (Raise e, s2) =>
            match __aexit__ (Some e) s2 with
            | (Return _, s3) => (Raise e, s3)
            | (Raise e', s3) => (Raise e', s3)
            end
        end
    end.

(** The decorator: [inner], which runs the call of [func] on the
    arguments it was given inside [async with self]. *)
Definition __call__ {A R} (func : A -> M R) : A -> M R :=
  fun args => async_with (func args).

End Engine.

Arguments _incr {exc} k timeout.

(** ** Reading a run *)

(** The calls a coroutine adds to the trace when run from [s]. *)
Definition emitted {E A} (c : M E A) (s : state) : list event :=
  drop (length (trace s)) (trace (snd (c s))).

(** The time-to-live recorded for a key, [None] when the key is missing. *)
Definition ttl_of (k : pykey) (m : gmap pykey entry) : Timeout :=
  from_option ttl None (m !! k).

(** The state right after the open flag was read. *)
Definition flag_read {exc} (cb : @CircuitBreaker exc) (s : state) : state :=
  State (store s) (trace s ++ [CacheGet (Some (circuit_cache_key cb))]).

(** The open flag as [is_circuit_open] sees it in [s]. *)
Definition flag_set {exc} (cb : @CircuitBreaker exc) (s : state) : bool :=
  truthy (Store.get (Some (circuit_cache_key cb)) (store s)).

(** The writes [open_circuit] makes on the cache, in program order. *)
Definition open_circuit_writes {exc} (cb : @CircuitBreaker exc) : list event :=
  CacheSet (Some (circuit_cache_key cb)) 1 (circuit_timeout cb)
  :: CacheDelete (Some (failure_cache_key (rule cb)))
  :: match request_cache_key (rule cb) with
     | Some rk => [CacheDelete (Some rk)]
     | None => []
     end.

Section Calls.

Context {exc : Type}.
Variable cb : @CircuitBreaker exc.

Let ck : pykey := Some (circuit_cache_key cb).
Let fk : pykey := Some (failure_cache_key (rule cb)).
Let rk : pykey := request_cache_key (rule cb).

(** The calls of [_incr] on key [k] when the counter stood at [n]. *)
Definition incr_calls (k : pykey) (timeout : Timeout) (n : Z) : list event :=
  CacheIncr k :: (if n + 1 =? 1 then [CacheExpire k timeout] else []).

(** The calls of [get_total_requests]. *)
Definition request_read_calls : list event :=
  if key_truthy rk then [CacheGet rk] else [].

(** What [get_total_requests] returns in [s]. *)
Definition total_requests (s : state) : Z :=
  if key_truthy rk then counter rk (store s) else 0.

(** What [get_total_failures] returns in [s]. *)
Definition total_failures (s : state) : Z := counter fk (store s).

(** The calls of [_increase_request_count] from [s]. *)
Definition request_accounting_calls (s : state) : list event :=
  CacheGet ck
  :: (if flag_set cb s || negb (should_increase_request_count (rule cb))
      then []
      else incr_calls rk (failure_timeout cb) (counter rk (store s))
           ++ (if should_increase_failure_count (rule cb)
               then [CacheAdd fk 0 (failure_timeout cb)]
               else [])).

(** The calls of [_increase_failure_count] from [s]. *)
Definition failure_accounting_calls (s : state) : list event :=
  CacheGet ck
  :: (if flag_set cb s || negb (should_increase_failure_count (rule cb))
      then []
      else incr_calls fk (failure_timeout cb) (counter fk (store s))
           ++ request_read_calls
           ++ [LogIncreaseFailures
                 (counter fk (store s) + 1)
                 (total_requests (snd (@_incr exc fk (failure_timeout cb) s)))]).

(** The state in which a failed exit reads the totals: request
    accounting, then failure accounting. *)
Definition accounted (s : state) : state :=
  snd (_increase_failure_count cb (snd (_increase_request_count cb s))).

(** The state after both totals were read. *)
Definition totals_read (s : state) : state :=
  State (store s) (trace s ++ CacheGet fk :: request_read_calls).

(** The state after the circuit was opened and both hooks were called. *)
Definition tripped (s : state) : state :=
  State (replay (open_circuit_writes cb) (store s))
        (trace s ++ open_circuit_writes cb
           ++ [NotifyOpenCircuit; NotifyMaxFailuresExceeded]).

End Calls.

(** The calls by which the circuit is opened: the write of the flag and
    the "circuit opened" hook. *)
Definition is_opening (ev : event) : bool :=
  match ev with
  | CacheSet _ _ _ | NotifyOpenCircuit => true
  | _ => false
  end.

(** *** Racing writes *)

(** A [set] or a [delete] decides the entry under its key whatever was
    there before: the key and what it holds afterwards. *)
Definition blind_write (ev : event) : option (pykey * option entry) :=
  match ev with
  | CacheSet k v t => Some (k, Some (Entry v t))
  | CacheDelete k => Some (k, None)
  | _ => None
  end.

Definition is_blind (ev : event) : bool :=
  match blind_write ev with
  | Some _ => true
  | None => false
  end.

(** What one call writes under [k], if it does. *)
Definition write_at (k : pykey) (ev : event) : option (option entry) :=
  match blind_write ev with
  | Some (k', x) => if decide (k' = k) then Some x else None
  | None => None
  end.

(** The last write under [k] in a sequence of calls. *)
Fixpoint last_write (k : pykey) (evs : list event) : option (option entry) :=
  match evs with
  | [] => None
  | ev :: rest =>
      match last_write k rest with
      | Some x => Some x
      | None => write_at k ev
      end
  end.

(** The calls of two callers, each in its own order, as the cache may
    receive them. *)
Inductive interleave {A : Type} : list A -> list A -> list A -> Prop :=
| interleave_nil : interleave [] [] []
| interleave_left a l1 l2 l :
    interleave l1 l2 l -> interleave (a :: l1) l2 (a :: l)
| interleave_right a l1 l2 l :
    interleave l1 l2 l -> interleave l1 (a :: l2) (a :: l).

(** The orders in which one call of [open_circuit] may issue its writes:
    the flag first, then the deletions, which are gathered and so may
    reach the cache in either order. *)
Definition open_circuit_schedules {exc} (cb : @CircuitBreaker exc)
  : list (list event) :=
  [ open_circuit_writes cb;
    CacheSet (Some (circuit_cache_key cb)) 1 (circuit_timeout cb)
    :: match request_cache_key (rule cb) with
       | Some rk => [CacheDelete (Some rk)]
       | None => []
       end
    ++ [CacheDelete (Some (failure_cache_key (rule cb)))] ].

(** ** Policies and a breaker to run the model on *)

(** Modelled from the spec: the failure-count-only policy of the
    scenarios of section 8 (the rule classes are not part of this file).
    It has no request key and opens once the failures reach the
    threshold. *)
Definition max_failures_rule (threshold : Z) (fk : string) : Rule :=
  {| failure_cache_key := fk;
     request_cache_key := None;
     should_open_circuit := fun total_failures _ => threshold <=? total_failures;
     should_increase_failure_count := true;
     should_increase_request_count := false |}.

(** Modelled from the spec: the ratio policy of the scenarios of
    section 8.  It opens when at least [min_requests] requests were seen
    and at least half of them failed. *)
Definition percentage_failures_rule (min_requests : Z) (fk rk : string) : Rule :=
  {| failure_cache_key := fk;
     request_cache_key := Some rk;
     should_open_circuit := fun total_failures total_requests =>
       (min_requests <=? total_requests)
       && (total_requests <=? 2 * total_failures);
     should_increase_failure_count := true;
     should_increase_request_count := true |}.

(** Exceptions are named by their class in the examples. *)
Definition breaker (r : Rule) : @CircuitBreaker string :=
  {| rule := r;
     circuit_cache_key := "circuit_fails";
     circuit_timeout := Some 30;
     failure_timeout := Some 60;
     failure_exception := "CircuitOpen";
     catch_exceptions := fun e => negb (String.eqb e "CancelledError") |}.

Definition count_breaker : @CircuitBreaker string :=
  breaker (max_failures_rule 3 "fails").

Definition ratio_breaker : @CircuitBreaker string :=
  breaker (percentage_failures_rule 4 "fails" "requests").

Definition empty_state : state := State ∅ [].

(** A cache in which the circuit of [count_breaker] is open. *)
Definition open_state : state :=
  State {[ Some "circuit_fails"%string := Entry 1 (Some 30) ]} [].

(** A policy that counts requests but not failures, and never opens. *)
Definition requests_only_rule (fk rk : string) : Rule :=
  {| failure_cache_key := fk;
     request_cache_key := Some rk;
     should_open_circuit := fun _ _ => false;
     should_increase_failure_count := false;
     should_increase_request_count := true |}.

Definition requests_only_breaker : @CircuitBreaker string :=
  breaker (requests_only_rule "fails" "requests").

(** A policy that asks for request counting without naming a request
    key. *)
Definition keyless_rule (fk : string) : Rule :=
  {| failure_cache_key := fk;
     request_cache_key := None;
     should_open_circuit := fun _ _ => false;
     should_increase_failure_count := true;
     should_increase_request_count := true |}.

Definition keyless_breaker : @CircuitBreaker string :=
  breaker (keyless_rule "fails").

(** Two failures counted so far by [count_breaker], whose threshold is 3. *)
Definition two_failures : state :=
  State {[ Some "fails"%string := Entry 2 (Some 60) ]} [].

(** One failure among three requests, circuit closed. *)
Definition three_requests : state :=
  State (<[ Some "requests"%string := Entry 3 (Some 60) ]>
           {[ Some "fails"%string := Entry 1 (Some 60) ]}) [].

(** The same counters when a racing caller has just set the open flag. *)
Definition raced_open : state :=
  State (<[ Some "circuit_fails"%string := Entry 1 (Some 30) ]>
           (store three_requests)) [].

(** A protected operation during which a racing caller writes the open
    flag of [ratio_breaker]. *)
Definition raced_operation : unit -> M string Z :=
  fun _ => cache_set (Some "circuit_fails"%string) 1 (Some 30) ;; ret 7.

(** ** Repeated calls *)

(** [n] calls of [_incr] on one key in a row. *)
Fixpoint incr_times (exc : Type) (k : pykey) (timeout : Timeout) (n : nat)
    (s : state) : state :=
  match n with
  | O => s
  | S n' => snd (@_incr exc k timeout (incr_times exc k timeout n' s))
  end.

(** [n] exits of the guarded scope in a row, each after the protected
    operation raised [e]. *)
Fixpoint failed_exits {exc : Type} (cb : @CircuitBreaker exc) (e : exc)
    (n : nat) (s : state) : state :=
  match n with
  | O => s
  | S n' => snd (__aexit__ cb (Some e) (failed_exits cb e n' s))
  end.

(** [n] exits of the guarded scope in a row, each without an exception. *)
Fixpoint clean_exits {exc : Type} (cb : @CircuitBreaker exc) (n : nat)
    (s : state) : state :=
  match n with
  | O => s
  | S n' => snd (__aexit__ cb None (clean_exits cb n' s))
  end.

(** A cache that holds a counter under the empty string. *)
Definition blank_counter : state :=
  State {[ Some EmptyString := Entry 5 None ]} [].

(** A policy whose request key is the empty string. *)
Definition blank_key_rule (fk : string) : Rule :=
  {| failure_cache_key := fk;
     request_cache_key := Some EmptyString;
     should_open_circuit := fun total_failures total_requests =>
       (1 <=? total_requests) && (total_requests <=? 2 * total_failures);
     should_increase_failure_count := true;
     should_increase_request_count := true |}.

Definition blank_key_breaker : @CircuitBreaker string :=
  breaker (blank_key_rule "fails").

(** A cache with an entry the breakers above have no key for. *)
Definition with_bystander : state :=
  State (<[ Some "other"%string := Entry 9 None ]> (store three_requests)) [].

(** ** How the coroutines run *)

Lemma py_or_counter (k : pykey) (m : gmap pykey entry) :
  py_or (Store.get k m) 0 = counter k m.
Proof.
  unfold py_or, counter. destruct (Store.get k m) as [v|]; simpl; [|done].
  destruct (Z.eqb_spec v 0); congruence.
Qed.

Lemma emitted_app {E A} (c : M E A) (s : state) (evs : list event) :
  trace (snd (c s)) = trace s ++ evs -> emitted c s = evs.
Proof.
  intros H. unfold emitted. rewrite H. by rewrite drop_app_length.
Qed.

Section Runs.

Context {exc : Type}.
Implicit Types (cb : @CircuitBreaker exc) (s : state) (k : pykey).

Lemma bind_Return {A B} (c : M exc A) (f : A -> M exc B) s a s1 :
  c s = (Return a, s1) -> bind c f s = f a s1.
Proof. intros H. unfold bind. by rewrite H. Qed.

Lemma is_circuit_open_run cb s :
  is_circuit_open cb s
  = (Return (truthy (Store.get (Some (circuit_cache_key cb)) (store s))),
     State (store s) (trace s ++ [CacheGet (Some (circuit_cache_key cb))])).
Proof. reflexivity. Qed.

Lemma get_total_failures_run cb s :
  get_total_failures cb s
  = (Return (counter (Some (failure_cache_key (rule cb))) (store s)),
     State (store s)
           (trace s ++ [CacheGet (Some (failure_cache_key (rule cb)))])).
Proof.
  unfold get_total_failures, bind, cache_get, ret.
  by rewrite py_or_counter.
Qed.

Lemma get_total_requests_run cb s :
  get_total_requests cb s
  = if key_truthy (request_cache_key (rule cb))
    then (Return (counter (request_cache_key (rule cb)) (store s)),
          State (store s) (trace s ++ [CacheGet (request_cache_key (rule cb))]))
    else (Return 0, s).
Proof.
  unfold get_total_requests.
  destruct (key_truthy (request_cache_key (rule cb))); simpl; [|done].
  unfold bind, cache_get, ret. by rewrite py_or_counter.
Qed.

(** Reading the totals leaves the cache as it is. *)
Lemma get_total_requests_store cb s :
  store (snd (get_total_requests cb s)) = store s.
Proof.
  rewrite get_total_requests_run.
  by destruct (key_truthy (request_cache_key (rule cb))).
Qed.

Lemma _incr_run k (timeout : Timeout) s :
  let v := counter k (store s) + 1 in
  @_incr exc k timeout s
  = (Return v,
     State (<[k := Entry v (if v =? 1 then timeout else ttl_of k (store s))]>
              (store s))
           (trace s ++ CacheIncr k
              :: (if v =? 1 then [CacheExpire k timeout] else []))).
Proof.
  unfold _incr, bind, cache_incr, cache_expire, ret, counter, ttl_of,
    Store.get, Store.incr, Store.expire.
  destruct (store s !! k) as [[v0 t0]|] eqn:E; simpl.
  - destruct (Z.eqb_spec (v0 + 1) 1) as [H1|H1]; simpl; [|done].
    rewrite lookup_insert_eq, insert_insert_eq. simpl.
    by rewrite <- app_assoc.
  - rewrite lookup_insert_eq, insert_insert_eq. simpl.
    by rewrite <- app_assoc.
Qed.

End Runs.

Section Protocol.

Context {exc : Type}.
Implicit Types (cb : @CircuitBreaker exc) (s : state) (k : pykey).

Lemma __aenter___run cb s :
  __aenter__ cb s
  = (if flag_set cb s then Raise (failure_exception cb) else Return tt,
     flag_read cb s).
Proof.
  unfold __aenter__. rewrite (bind_Return _ _ _ _ _ (is_circuit_open_run cb s)).
  fold (flag_set cb s) (flag_read cb s). by destruct (flag_set cb s).
Qed.

Lemma open_circuit_run cb s :
  open_circuit cb s
  = (Return tt,
     State (replay (open_circuit_writes cb) (store s))
           (trace s ++ open_circuit_writes cb ++ [NotifyOpenCircuit])).
Proof.
  unfold open_circuit, open_circuit_writes, gather, bind, cache_set,
    cache_delete, _notify_open_circuit, emit, ret.
  destruct (request_cache_key (rule cb)) as [rk|]; simpl;
    by rewrite <- !app_assoc.
Qed.

Lemma _increase_request_count_run cb s :
  _increase_request_count cb s
  = (Return tt,
     if flag_set cb s || negb (should_increase_request_count (rule cb))
     then flag_read cb s
     else
       let s1 := snd (@_incr exc (request_cache_key (rule cb))
                        (failure_timeout cb) (flag_read cb s)) in
       if should_increase_failure_count (rule cb)
       then State (Store.add (Some (failure_cache_key (rule cb))) 0
                     (failure_timeout cb) (store s1))
                  (trace s1 ++ [CacheAdd (Some (failure_cache_key (rule cb))) 0
                                  (failure_timeout cb)])
       else s1).
Proof.
  unfold _increase_request_count.
  rewrite (bind_Return _ _ _ _ _ (is_circuit_open_run cb s)).
  fold (flag_set cb s) (flag_read cb s).
  destruct (flag_set cb s || negb (should_increase_request_count (rule cb)));
    [done|].
  rewrite (bind_Return _ _ _ _ _ (_incr_run _ _ _)).
  rewrite _incr_run. cbv zeta. simpl snd.
  by destruct (should_increase_failure_count (rule cb)).
Qed.

Lemma _increase_failure_count_run cb s :
  _increase_failure_count cb s
  = (Return tt,
     if flag_set cb s || negb (should_increase_failure_count (rule cb))
     then flag_read cb s
     else
       let r1 := @_incr exc (Some (failure_cache_key (rule cb)))
                   (failure_timeout cb) (flag_read cb s) in
       let r2 := get_total_requests cb (snd r1) in
       State (store (snd r2))
             (trace (snd r2)
                ++ [LogIncreaseFailures
                      (counter (Some (failure_cache_key (rule cb))) (store s) + 1)
                      (if key_truthy (request_cache_key (rule cb))
                       then counter (request_cache_key (rule cb)) (store (snd r1))
                       else 0)])).
Proof.
  unfold _increase_failure_count.
  rewrite (bind_Return _ _ _ _ _ (is_circuit_open_run cb s)).
  fold (flag_set cb s) (flag_read cb s).
  destruct (flag_set cb s || negb (should_increase_failure_count (rule cb)));
    [done|].
  unfold gather, bind at 1 2. rewrite _incr_run. cbv zeta. simpl snd.
  unfold bind. rewrite !get_total_requests_run.
  destruct (key_truthy (request_cache_key (rule cb))); reflexivity.
Qed.

End Protocol.

(** ** Entering the guarded scope *)

Section Entry.

Context {exc : Type}.
Implicit Types (cb : @CircuitBreaker exc) (s : state).

(** C1. When the open flag is present and truthy in the cache, entering
    the guarded scope raises the configured [failure_exception], through
    the context manager ([__aenter__], and so the whole [async with]
    block) as well as through the decorated callable.  The outcome and
    the final state are the same whatever the protected operation is:
    the only call made is the read of the flag, so the operation was
    never invoked. *)
Theorem open_circuit_rejects_on_entry {A R : Type} cb
    (func : A -> M exc R) (args : A) (body : M exc R) s :
  flag_set cb s = true ->
  __aenter__ cb s = (Raise (failure_exception cb), flag_read cb s)
  /\ async_with cb body s = (Raise (failure_exception cb), flag_read cb s)
  /\ __call__ cb func args s = (Raise (failure_exception cb), flag_read cb s)
  /\ emitted (__call__ cb func args) s
     = [CacheGet (Some (circuit_cache_key cb))].
Proof.
  intros Hopen.
  assert (Henter : __aenter__ cb s
                   = (Raise (failure_exception cb), flag_read cb s)).
  { rewrite __aenter___run. by rewrite Hopen. }
  assert (Hwith : forall b : M exc R,
             async_with cb b s = (Raise (failure_exception cb), flag_read cb s)).
  { intros b. unfold async_with. by rewrite Henter. }
  repeat split; [done | apply Hwith | apply Hwith |].
  apply emitted_app. unfold __call__. by rewrite Hwith.
Qed.

End Entry.

Lemma open_circuit_rejects_on_entry_witness :
  flag_set count_breaker open_state = true
  /\ __call__ count_breaker (fun n : Z => ret (n + 1)) 41 open_state
     = (Raise "CircuitOpen"%string, flag_read count_breaker open_state).
Proof.
  split; [reflexivity|].
  apply (open_circuit_rejects_on_entry count_breaker
           (fun n : Z => ret (n + 1)) 41 (ret 0) open_state).
  reflexivity.
Defined.

Ltac split_ifs :=
  repeat match goal with
         | |- context [if ?b then _ else _] => destruct b eqn:?
         end.

Section CallLemmas.

Context {exc : Type}.
Implicit Types (cb : @CircuitBreaker exc) (s : state) (k : pykey).

Lemma _incr_trace k (timeout : Timeout) s :
  trace (snd (@_incr exc k timeout s))
  = trace s ++ incr_calls k timeout (counter k (store s)).
Proof. by rewrite _incr_run. Qed.

Lemma _increase_request_count_trace cb s :
  trace (snd (_increase_request_count cb s))
  = trace s ++ request_accounting_calls cb s.
Proof.
  rewrite _increase_request_count_run. unfold request_accounting_calls.
  simpl snd.
  destruct (flag_set cb s || negb (should_increase_request_count (rule cb)));
    [done|].
  cbv zeta. rewrite _incr_run. cbv zeta. unfold incr_calls. simpl.
  split_ifs; simpl; by rewrite <- ?app_assoc.
Qed.

Lemma _increase_failure_count_trace cb s :
  trace (snd (_increase_failure_count cb s))
  = trace s ++ failure_accounting_calls cb s.
Proof.
  rewrite _increase_failure_count_run. unfold failure_accounting_calls.
  simpl snd.
  destruct (flag_set cb s || negb (should_increase_failure_count (rule cb)));
    [done|].
  cbv zeta. rewrite !get_total_requests_run, !_incr_run. cbv zeta.
  unfold incr_calls, request_read_calls, total_requests. simpl.
  split_ifs; simpl; by rewrite <- ?app_assoc.
Qed.

Lemma gather_totals_run cb s :
  gather (get_total_failures cb) (get_total_requests cb) s
  = (Return (total_failures cb s, total_requests cb s), totals_read cb s).
Proof.
  unfold gather, bind. rewrite get_total_failures_run, get_total_requests_run.
  unfold total_failures, total_requests, totals_read, request_read_calls, ret.
  destruct (key_truthy (request_cache_key (rule cb))); simpl;
    by rewrite <- ?app_assoc.
Qed.

Lemma open_and_notify_run cb s :
  (open_circuit cb ;; _notify_max_failures_exceeded) s
  = (Return tt, tripped cb s).
Proof.
  unfold bind. rewrite open_circuit_run.
  unfold _notify_max_failures_exceeded, emit, tripped. cbn [store trace].
  by rewrite <- !app_assoc.
Qed.

Lemma __aexit___run cb (exc_type : option exc) s :
  __aexit__ cb exc_type s
  = if _is_catchable_exception cb exc_type
    then
      let s2 := accounted cb s in
      if should_open_circuit (rule cb) (total_failures cb s2)
           (total_requests cb s2)
      then (Raise (failure_exception cb), tripped cb (totals_read cb s2))
      else (Return tt, totals_read cb s2)
    else (Return tt, snd (_increase_request_count cb s)).
Proof.
  unfold __aexit__, accounted.
  unfold bind at 1. rewrite _increase_request_count_run. simpl snd.
  destruct (_is_catchable_exception cb exc_type); [|done].
  unfold bind at 1. rewrite _increase_failure_count_run. simpl snd.
  unfold bind at 1. rewrite gather_totals_run. simpl fst. simpl snd.
  cbv zeta.
  destruct (should_open_circuit _ _ _); [|done].
  unfold bind. rewrite open_circuit_run.
  unfold _notify_max_failures_exceeded, emit, raise, tripped.
  cbn [store trace]. by rewrite <- !app_assoc.
Qed.

End CallLemmas.

(** ** Leaving the guarded scope *)

Section Exit.

Context {exc : Type}.
Implicit Types (cb : @CircuitBreaker exc) (s : state).

Lemma request_accounting_never_opens cb s :
  existsb is_opening (request_accounting_calls cb s) = false.
Proof.
  unfold request_accounting_calls, incr_calls. split_ifs; reflexivity.
Qed.

Lemma failure_accounting_never_opens cb s :
  existsb is_opening (failure_accounting_calls cb s) = false.
Proof.
  unfold failure_accounting_calls, incr_calls, request_read_calls.
  split_ifs; reflexivity.
Qed.

Lemma accounted_trace cb s :
  trace (accounted cb s)
  = trace s ++ request_accounting_calls cb s
      ++ failure_accounting_calls cb (snd (_increase_request_count cb s)).
Proof.
  unfold accounted.
  rewrite _increase_failure_count_trace, _increase_request_count_trace.
  by rewrite <- app_assoc.
Qed.

Lemma accounting_run cb s :
  (_increase_request_count cb ;; _increase_failure_count cb) s
  = (Return tt, accounted cb s).
Proof.
  rewrite (bind_Return _ _ _ _ _ (_increase_request_count_run cb s)).
  unfold accounted. rewrite _increase_request_count_run. simpl snd.
  by rewrite _increase_failure_count_run.
Qed.


End Exit.

(** ** Opening the circuit *)

Lemma replay_cons (ev : event) (evs : list event) (m : gmap pykey entry) :
  replay (ev :: evs) m = replay evs (apply_event ev m).
Proof. reflexivity. Qed.

Lemma replay_app (l1 l2 : list event) (m : gmap pykey entry) :
  replay (l1 ++ l2) m = replay l2 (replay l1 m).
Proof. unfold replay. by rewrite fold_left_app. Qed.

Lemma apply_blind_lookup (ev : event) (m : gmap pykey entry) (k : pykey) :
  is_blind ev = true ->
  apply_event ev m !! k = from_option id (m !! k) (write_at k ev).
Proof.
  unfold is_blind, write_at.
  destruct ev; simpl; try discriminate; intros _;
    unfold Store.set, Store.delete; case_decide; subst;
    by rewrite ?lookup_insert_eq, ?lookup_delete_eq,
         ?lookup_insert_ne, ?lookup_delete_ne by done.
Qed.

Lemma replay_blind_lookup (evs : list event) (m : gmap pykey entry) (k : pykey) :
  forallb is_blind evs = true ->
  replay evs m !! k = from_option id (m !! k) (last_write k evs).
Proof.
  revert m. induction evs as [|ev rest IH]; intros m Hb; [done|].
  simpl in Hb. apply andb_true_iff in Hb as [Hev Hrest].
  rewrite replay_cons, IH by done. simpl.
  destruct (last_write k rest); [done|].
  by apply apply_blind_lookup.
Qed.

Lemma interleave_app {A : Type} (l1 l2 : list A) : interleave l1 l2 (l1 ++ l2).
Proof.
  induction l1 as [|a l1 IH]; simpl.
  - induction l2; constructor; done.
  - by constructor.
Qed.

Lemma interleave_forallb {A : Type} (p : A -> bool) (l1 l2 l : list A) :
  interleave l1 l2 l ->
  forallb p l1 = true -> forallb p l2 = true -> forallb p l = true.
Proof.
  induction 1; simpl; intros H1 H2; [done| |].
  - apply andb_true_iff in H1 as [? ?]. apply andb_true_iff. auto.
  - apply andb_true_iff in H2 as [? ?]. apply andb_true_iff. auto.
Qed.

(** The last write under a key in an interleaving is the last write of one
    of the two callers, and there is none only if neither wrote. *)
Lemma interleave_last_write (k : pykey) (l1 l2 l : list event) :
  interleave l1 l2 l ->
  (last_write k l = last_write k l1 \/ last_write k l = last_write k l2)
  /\ (last_write k l = None ->
      last_write k l1 = None /\ last_write k l2 = None).
Proof.
  induction 1 as [|a l1 l2 l _ [IHor IHnone]|a l1 l2 l _ [IHor IHnone]];
    simpl; [auto| |].
  - destruct (last_write k l) as [x|] eqn:El.
    + split; [|done]. destruct IHor as [<-|<-]; auto.
    + destruct (IHnone eq_refl) as [-> ->]. auto.
  - destruct (last_write k l) as [x|] eqn:El.
    + split; [|done]. destruct IHor as [<-|<-]; auto.
    + destruct (IHnone eq_refl) as [-> ->]. auto.
Qed.

Section Opening.

Context {exc : Type}.
Implicit Types (cb : @CircuitBreaker exc) (s : state) (k : pykey).

Lemma open_circuit_writes_blind cb :
  forallb is_blind (open_circuit_writes cb) = true.
Proof.
  unfold open_circuit_writes.
  by destruct (request_cache_key (rule cb)).
Qed.

Lemma open_circuit_schedules_blind cb w :
  In w (open_circuit_schedules cb) -> forallb is_blind w = true.
Proof.
  unfold open_circuit_schedules, open_circuit_writes.
  intros [<-|[<-|[]]]; by destruct (request_cache_key (rule cb)).
Qed.

(** What [open_circuit] leaves under each key. *)
Lemma open_circuit_last_write cb k :
  last_write k (open_circuit_writes cb)
  = if decide (Some (failure_cache_key (rule cb)) = k) then Some None
    else if decide (request_cache_key (rule cb) = k
                    /\ request_cache_key (rule cb) <> None) then Some None
    else if decide (Some (circuit_cache_key cb) = k)
         then Some (Some (Entry 1 (circuit_timeout cb)))
         else None.
Proof.
  unfold open_circuit_writes.
  destruct (request_cache_key (rule cb)) as [rk|]; simpl; unfold write_at;
    simpl; repeat case_decide; simplify_eq; try done; intuition congruence.
Qed.

(** Whichever order the gathered deletions take, the last write under
    each key is the same. *)
Lemma open_circuit_schedules_last_write cb w k :
  In w (open_circuit_schedules cb) ->
  last_write k w = last_write k (open_circuit_writes cb).
Proof.
  unfold open_circuit_schedules, open_circuit_writes.
  intros [<-|[<-|[]]]; [done|].
  destruct (request_cache_key (rule cb)) as [rk|]; simpl; unfold write_at;
    simpl; repeat case_decide; simplify_eq; try done; intuition congruence.
Qed.

End Opening.

Section OpeningClaims.

Context {exc : Type}.
Implicit Types (cb : @CircuitBreaker exc) (s : state) (k : pykey).

Lemma open_circuit_store_lookup cb s k :
  store (snd (open_circuit cb s)) !! k
  = from_option id (store s !! k) (last_write k (open_circuit_writes cb)).
Proof.
  rewrite open_circuit_run. cbn [snd store].
  by rewrite replay_blind_lookup by apply open_circuit_writes_blind.
Qed.

(** The cache after [open_circuit]: counters gone, and the flag set
    when its key is not the key of a counter. *)
Lemma open_circuit_end_state cb s :
  let s' := snd (open_circuit cb s) in
  store s' !! Some (failure_cache_key (rule cb)) = None
  /\ (forall rk, request_cache_key (rule cb) = Some rk ->
                 store s' !! Some rk = None)
  /\ (circuit_cache_key cb <> failure_cache_key (rule cb) ->
      request_cache_key (rule cb) <> Some (circuit_cache_key cb) ->
      store s' !! Some (circuit_cache_key cb)
      = Some (Entry 1 (circuit_timeout cb))).
Proof.
  intros s'. unfold s'. repeat split.
  - rewrite open_circuit_store_lookup, open_circuit_last_write.
    by rewrite decide_True.
  - intros rk Erk.
    rewrite open_circuit_store_lookup, open_circuit_last_write, Erk.
    case_decide; [done|]. by rewrite decide_True.
  - intros Hcf Hcr.
    rewrite open_circuit_store_lookup, open_circuit_last_write.
    rewrite decide_False by congruence.
    rewrite decide_False by (intros [? ?]; congruence).
    by rewrite decide_True.
Qed.

(** C4. Every call of [open_circuit] returns after making, in this
    order: the write of the open flag (value 1) under
    [circuit_cache_key] with [circuit_timeout]; the deletion of the
    failure counter and, when the policy has a request key, of the
    request counter (gathered: applied in the other order the two
    deletions give the same cache); the "circuit opened" hook.
    Afterwards both counters are absent and read as 0, and the open flag
    is present, given that its key is not also the key of a counter. *)
Theorem open_circuit_sets_flag_and_clears_counters cb s :
  let s' := snd (open_circuit cb s) in
  let ck := Some (circuit_cache_key cb) in
  let fk := Some (failure_cache_key (rule cb)) in
  fst (open_circuit cb s) = Return tt
  /\ emitted (open_circuit cb) s
     = [CacheSet ck 1 (circuit_timeout cb); CacheDelete fk]
       ++ match request_cache_key (rule cb) with
          | Some rk => [CacheDelete (Some rk)]
          | None => []
          end
       ++ [NotifyOpenCircuit]
  /\ store s' = replay (open_circuit_writes cb) (store s)
  /\ (forall w, In w (open_circuit_schedules cb) ->
                replay w (store s) = store s')
  /\ store s' !! fk = None
  /\ (forall rk, request_cache_key (rule cb) = Some rk ->
                 store s' !! Some rk = None)
  /\ fst (get_total_failures cb s') = Return 0
  /\ fst (get_total_requests cb s') = Return 0
  /\ (circuit_cache_key cb <> failure_cache_key (rule cb) ->
      request_cache_key (rule cb) <> ck ->
      store s' !! ck = Some (Entry 1 (circuit_timeout cb))
      /\ flag_set cb s' = true).
Proof.
  intros s' ck fk.
  destruct (open_circuit_end_state cb s) as (Hfk & Hrk & Hflag).
  fold s' in Hfk, Hrk, Hflag. fold fk in Hfk. fold ck in Hflag.
  split; [by rewrite open_circuit_run|].
  split.
  { apply emitted_app. rewrite open_circuit_run. simpl snd. cbn [trace].
    unfold open_circuit_writes. by rewrite <- ?app_assoc. }
  split; [unfold s'; by rewrite open_circuit_run|].
  split.
  { intros w Hw. apply map_eq. intros k. unfold s'.
    rewrite open_circuit_store_lookup.
    rewrite replay_blind_lookup by by eapply open_circuit_schedules_blind.
    by rewrite (open_circuit_schedules_last_write cb w k Hw). }
  split; [done|]. split; [done|].
  split.
  { rewrite get_total_failures_run. simpl fst. unfold counter, Store.get.
    fold fk. by rewrite Hfk. }
  split.
  { rewrite get_total_requests_run.
    destruct (key_truthy (request_cache_key (rule cb))) eqn:Ekt; [|done].
    simpl fst. unfold counter, Store.get.
    destruct (request_cache_key (rule cb)) as [rk|] eqn:Erk; [|done].
    by rewrite (Hrk rk eq_refl). }
  intros Hcf Hcr. pose proof (Hflag Hcf Hcr) as Hck.
  split; [done|].
  unfold flag_set, Store.get. fold ck. by rewrite Hck.
Qed.

(** C5. [open_circuit] is idempotent on the cache.  Called twice in
    sequence it returns both times and leaves the cache as one call
    does; it returns from every state, so a racing call raises nothing
    either; and however the cache receives the writes of two racing
    calls, each in one of its own orders, the cache ends as after one
    call.  That end state has both counters cleared and, given that
    the key of the flag is not also the key of a counter, the flag set
    with [circuit_timeout]. *)
Theorem open_circuit_idempotent cb s :
  let once := store (snd (open_circuit cb s)) in
  let ck := Some (circuit_cache_key cb) in
  (fst ((open_circuit cb ;; open_circuit cb) s) = Return tt
   /\ store (snd ((open_circuit cb ;; open_circuit cb) s)) = once)
  /\ (forall s', fst (open_circuit cb s') = Return tt)
  /\ (forall w1 w2 l,
         In w1 (open_circuit_schedules cb) ->
         In w2 (open_circuit_schedules cb) ->
         interleave w1 w2 l ->
         replay l (store s) = once)
  /\ once !! Some (failure_cache_key (rule cb)) = None
  /\ (forall rk, request_cache_key (rule cb) = Some rk ->
                 once !! Some rk = None)
  /\ (circuit_cache_key cb <> failure_cache_key (rule cb) ->
      request_cache_key (rule cb) <> ck ->
      once !! ck = Some (Entry 1 (circuit_timeout cb))).
Proof.
  intros once ck.
  assert (Hrace : forall w1 w2 l,
             In w1 (open_circuit_schedules cb) ->
             In w2 (open_circuit_schedules cb) ->
             interleave w1 w2 l ->
             replay l (store s) = once).
  { intros w1 w2 l H1 H2 Hl. apply map_eq. intros k. unfold once.
    rewrite open_circuit_store_lookup.
    rewrite replay_blind_lookup
      by (eapply interleave_forallb;
          eauto using open_circuit_schedules_blind).
    f_equal.
    destruct (interleave_last_write k w1 w2 l Hl) as [[->| ->] _];
      by apply open_circuit_schedules_last_write. }
  split.
  { rewrite (bind_Return _ _ _ _ _ (open_circuit_run cb s)).
    rewrite open_circuit_run. split; [done|]. cbn [snd store].
    rewrite <- replay_app. apply Hrace with
      (w1 := open_circuit_writes cb) (w2 := open_circuit_writes cb);
      [by left | by left | apply interleave_app]. }
  split; [intros s'; by rewrite open_circuit_run|].
  split; [done|].
  apply open_circuit_end_state.
Qed.

End OpeningClaims.

(** ** Counters *)

Lemma add_lookup_present (k k' : pykey) (v : Z) (t : Timeout)
    (m : gmap pykey entry) :
  is_Some (m !! k') -> Store.add k v t m !! k' = m !! k'.
Proof.
  intros Hk'. unfold Store.add. destruct (m !! k) eqn:Ek; [done|].
  apply lookup_insert_ne. intros ->. rewrite Ek in Hk'. by destruct Hk'.
Qed.

Lemma add_present (k : pykey) (v : Z) (t : Timeout) (m : gmap pykey entry) :
  is_Some (m !! k) -> Store.add k v t m = m.
Proof. intros [e He]. unfold Store.add. by rewrite He. Qed.

Lemma add_absent (k : pykey) (v : Z) (t : Timeout) (m : gmap pykey entry) :
  m !! k = None -> Store.add k v t m !! k = Some (Entry v t).
Proof. intros He. unfold Store.add. rewrite He. apply lookup_insert_eq. Qed.

Section Counters.

Context {exc : Type}.
Implicit Types (cb : @CircuitBreaker exc) (s : state) (k : pykey).

Lemma _incr_store k (timeout : Timeout) s :
  store (snd (@_incr exc k timeout s))
  = <[k := Entry (counter k (store s) + 1)
                 (if counter k (store s) + 1 =? 1 then timeout
                  else ttl_of k (store s))]> (store s).
Proof. by rewrite _incr_run. Qed.

(** C9. [_incr] increments the integer under the key in one cache call
    and returns the incremented value (1 for a key that was missing);
    other keys are untouched.  [expire] with the given timeout is called
    exactly when the returned value is 1, so the time-to-live of the
    counter becomes that timeout in this case and stays as it was
    otherwise. *)
Theorem incr_sets_ttl_exactly_on_value_one k (timeout : Timeout) s :
  let n := counter k (store s) in
  let r := @_incr exc k timeout s in
  fst r = Return (n + 1)
  /\ Store.get k (store (snd r)) = Some (n + 1)
  /\ (forall k', k' <> k -> store (snd r) !! k' = store s !! k')
  /\ emitted (@_incr exc k timeout) s
     = CacheIncr k :: (if n + 1 =? 1 then [CacheExpire k timeout] else [])
  /\ (In (CacheExpire k timeout) (emitted (@_incr exc k timeout) s)
      <-> n + 1 = 1)
  /\ ttl_of k (store (snd r))
     = if n + 1 =? 1 then timeout else ttl_of k (store s).
Proof.
  intros n r.
  assert (Hem : emitted (@_incr exc k timeout) s
                = CacheIncr k
                  :: (if n + 1 =? 1 then [CacheExpire k timeout] else [])).
  { apply emitted_app. by rewrite _incr_trace. }
  split; [unfold r; by rewrite _incr_run|].
  split.
  { unfold r, Store.get. by rewrite _incr_store, lookup_insert_eq. }
  split.
  { intros k' Hk'. unfold r. by rewrite _incr_store, lookup_insert_ne. }
  split; [done|].
  split.
  { rewrite Hem. destruct (Z.eqb_spec (n + 1) 1) as [H1|H1]; simpl.
    - split; [done|]. auto.
    - split; [|done]. intros [H|[]]. discriminate. }
  unfold r, ttl_of at 1. by rewrite _incr_store, lookup_insert_eq.
Qed.

Lemma _increase_request_count_emitted cb s :
  emitted (_increase_request_count cb) s = request_accounting_calls cb s.
Proof. apply emitted_app, _increase_request_count_trace. Qed.

Lemma _increase_failure_count_emitted cb s :
  emitted (_increase_failure_count cb) s = failure_accounting_calls cb s.
Proof. apply emitted_app, _increase_failure_count_trace. Qed.

(** The request counter after request accounting that was not skipped. *)
Lemma request_accounting_counter cb s :
  flag_set cb s = false ->
  should_increase_request_count (rule cb) = true ->
  counter (request_cache_key (rule cb))
    (store (snd (_increase_request_count cb s)))
  = counter (request_cache_key (rule cb)) (store s) + 1.
Proof.
  intros Hclosed Hreq.
  rewrite _increase_request_count_run, Hclosed, Hreq. simpl snd.
  cbv zeta. unfold counter at 1, Store.get.
  destruct (should_increase_failure_count (rule cb)); cbn [store].
  - rewrite add_lookup_present; rewrite _incr_store, lookup_insert_eq; done.
  - by rewrite _incr_store, lookup_insert_eq.
Qed.

(** [__aexit__] starts with the calls of request accounting. *)
Lemma __aexit___trace_prefix cb (exc_type : option exc) s :
  exists rest,
    trace (snd (__aexit__ cb exc_type s))
    = trace s ++ request_accounting_calls cb s ++ rest.
Proof.
  rewrite __aexit___run.
  destruct (_is_catchable_exception cb exc_type).
  - cbv zeta.
    destruct (should_open_circuit _ _ _); unfold tripped, totals_read;
      cbn [snd trace]; rewrite accounted_trace; eexists;
      rewrite <- ?app_assoc; reflexivity.
  - exists []. cbn [snd]. by rewrite app_nil_r, _increase_request_count_trace.
Qed.

End Counters.

(** ** Accounting *)

Section Accounting.

Context {exc : Type}.
Implicit Types (cb : @CircuitBreaker exc) (s : state) (k : pykey).

(** C6, amended.  On every exit of the guarded scope, with or without
    an exception, the request counter is increased when the circuit is
    not open at that moment and the policy enables request counting:
    the exit starts by reading the flag and incrementing the request
    counter, which then stands one higher, and that is the final value
    when the exit does no failure accounting. *)
Theorem exit_counts_request_when_closed cb (exc_type : option exc) s :
  flag_set cb s = false ->
  should_increase_request_count (rule cb) = true ->
  let rk := request_cache_key (rule cb) in
  (exists rest,
      emitted (__aexit__ cb exc_type) s
      = CacheGet (Some (circuit_cache_key cb)) :: CacheIncr rk :: rest)
  /\ counter rk (store (snd (_increase_request_count cb s)))
     = counter rk (store s) + 1
  /\ (_is_catchable_exception cb exc_type = false ->
      counter rk (store (snd (__aexit__ cb exc_type s)))
      = counter rk (store s) + 1).
Proof.
  intros Hclosed Hreq rk.
  split; [|split].
  - destruct (__aexit___trace_prefix cb exc_type s) as [rest Hrest].
    unfold request_accounting_calls, incr_calls in Hrest.
    rewrite Hclosed, Hreq in Hrest. simpl in Hrest.
    eexists. apply emitted_app. rewrite Hrest. reflexivity.
  - by apply request_accounting_counter.
  - intros Hnot. rewrite __aexit___run, Hnot. cbn [snd].
    by apply request_accounting_counter.
Qed.

(** C7, amended.  When request accounting runs and the policy also
    counts failures, the request counter is incremented and then the
    failure counter is created with [add]: value 0 and the same
    [failure_timeout] that [_incr] gives a request counter it creates.
    If the failure counter is missing at that point it now exists with
    that value and timeout; if it exists the cache is left as it was,
    time-to-live included. *)
Theorem request_accounting_seeds_failure_counter cb s :
  flag_set cb s = false ->
  should_increase_request_count (rule cb) = true ->
  should_increase_failure_count (rule cb) = true ->
  let rk := request_cache_key (rule cb) in
  let fk := Some (failure_cache_key (rule cb)) in
  let s0 := snd (@_incr exc rk (failure_timeout cb) (flag_read cb s)) in
  let s1 := snd (_increase_request_count cb s) in
  emitted (_increase_request_count cb) s
  = CacheGet (Some (circuit_cache_key cb))
    :: incr_calls rk (failure_timeout cb) (counter rk (store s))
    ++ [CacheAdd fk 0 (failure_timeout cb)]
  /\ store s1 = Store.add fk 0 (failure_timeout cb) (store s0)
  /\ (store s0 !! fk = None ->
      store s1 !! fk = Some (Entry 0 (failure_timeout cb)))
  /\ (is_Some (store s0 !! fk) -> store s1 = store s0)
  /\ (store s !! rk = None -> store s !! fk = None -> rk <> fk ->
      ttl_of rk (store s1) = failure_timeout cb
      /\ ttl_of fk (store s1) = failure_timeout cb).
Proof.
  intros Hclosed Hreq Hfail rk fk s0 s1.
  assert (Hs1 : store s1 = Store.add fk 0 (failure_timeout cb) (store s0)).
  { unfold s1. rewrite _increase_request_count_run, Hclosed, Hreq, Hfail.
    reflexivity. }
  split.
  { rewrite _increase_request_count_emitted. unfold request_accounting_calls.
    by rewrite Hclosed, Hreq, Hfail. }
  split; [done|].
  split; [intros Habs; rewrite Hs1; by apply add_absent|].
  split; [intros Hpres; rewrite Hs1; by apply add_present|].
  intros Hr Hf Hne.
  assert (Hs0 : store s0
                = <[rk := Entry 1 (failure_timeout cb)]> (store s)).
  { unfold s0. rewrite _incr_store. cbn [flag_read store].
    unfold counter, Store.get. by rewrite Hr. }
  assert (Hf0 : store s0 !! fk = None).
  { by rewrite Hs0, lookup_insert_ne. }
  unfold ttl_of. rewrite Hs1. split.
  - rewrite add_lookup_present; rewrite Hs0, lookup_insert_eq; done.
  - by rewrite add_absent.
Qed.

(** C8. Failure accounting always returns.  It is skipped when the
    circuit is open at that moment or when the policy does not count
    failures: the only call is the read of the flag and the cache is
    left as it was.  Otherwise the failure counter is incremented and
    [log_increase_failures] is called last, with the value the increment
    returned and the request total read right after the increment (the
    same total as before it when the two counters have different keys,
    so the order of the gathered calls does not matter). *)
Theorem failure_accounting_skips_or_counts cb s :
  let r := _increase_failure_count cb s in
  let fk := Some (failure_cache_key (rule cb)) in
  let n := counter fk (store s) in
  let s1 := snd (@_incr exc fk (failure_timeout cb) (flag_read cb s)) in
  fst r = Return tt
  /\ (flag_set cb s = true
      \/ should_increase_failure_count (rule cb) = false ->
      snd r = flag_read cb s
      /\ store (snd r) = store s
      /\ emitted (_increase_failure_count cb) s
         = [CacheGet (Some (circuit_cache_key cb))])
  /\ (flag_set cb s = false ->
      should_increase_failure_count (rule cb) = true ->
      fst (@_incr exc fk (failure_timeout cb) (flag_read cb s))
      = Return (n + 1)
      /\ fst (get_total_requests cb s1) = Return (total_requests cb s1)
      /\ Store.get fk (store (snd r)) = Some (n + 1)
      /\ store (snd r) = store s1
      /\ emitted (_increase_failure_count cb) s
         = CacheGet (Some (circuit_cache_key cb))
           :: incr_calls fk (failure_timeout cb) n
           ++ request_read_calls cb
           ++ [LogIncreaseFailures (n + 1) (total_requests cb s1)]
      /\ (request_cache_key (rule cb) <> fk ->
          total_requests cb s1 = total_requests cb s)).
Proof.
  intros r fk n s1.
  split; [unfold r; by rewrite _increase_failure_count_run|].
  split.
  - intros Hskip.
    assert (Hcond : flag_set cb s
                    || negb (should_increase_failure_count (rule cb)) = true).
    { destruct Hskip as [-> | ->]; [done|]. apply orb_true_r. }
    rewrite _increase_failure_count_emitted.
    unfold r, failure_accounting_calls.
    rewrite _increase_failure_count_run, Hcond. done.
  - intros Hclosed Hfail.
    assert (Hstore : store (snd r) = store s1).
    { unfold r. rewrite _increase_failure_count_run, Hclosed, Hfail.
      cbn [snd orb negb]. cbv zeta. cbn [store].
      by rewrite get_total_requests_store. }
    split; [by rewrite _incr_run|].
    split.
    { rewrite get_total_requests_run. unfold total_requests.
      by destruct (key_truthy (request_cache_key (rule cb))). }
    split.
    { rewrite Hstore. unfold s1, Store.get.
      by rewrite _incr_store, lookup_insert_eq. }
    split; [done|].
    split.
    { rewrite _increase_failure_count_emitted. unfold failure_accounting_calls.
      rewrite Hclosed, Hfail. cbn [orb negb].
      unfold total_requests, s1. by rewrite !_incr_store. }
    intros Hne. unfold total_requests, s1, counter, Store.get.
    rewrite _incr_store. cbn [flag_read store].
    by rewrite lookup_insert_ne.
Qed.

(** C10. Request accounting is gated by the open flag and by the
    policy's [should_increase_request_count] and by nothing else: the
    increment is issued on [rule.request_cache_key], whatever that is,
    exactly when the circuit is not open and the policy enables request
    counting.  So a policy that enables request counting with no
    request key makes the engine increment the key [None].  The read
    path is guarded: without a request key [get_total_requests] returns
    0 and makes no call on the cache. *)
Theorem request_accounting_not_gated_by_key cb s :
  (In (CacheIncr (request_cache_key (rule cb)))
      (emitted (_increase_request_count cb) s)
   <-> flag_set cb s = false
       /\ should_increase_request_count (rule cb) = true)
  /\ (request_cache_key (rule cb) = None ->
      flag_set cb s = false ->
      should_increase_request_count (rule cb) = true ->
      exists rest,
        emitted (_increase_request_count cb) s
        = CacheGet (Some (circuit_cache_key cb)) :: CacheIncr None :: rest)
  /\ (request_cache_key (rule cb) = None ->
      get_total_requests cb s = (Return 0, s)).
Proof.
  rewrite _increase_request_count_emitted.
  unfold request_accounting_calls, incr_calls.
  split; [|split].
  - destruct (flag_set cb s); simpl.
    + split; [|by intros [? _]]. intros [H|[]]. discriminate.
    + destruct (should_increase_request_count (rule cb)); simpl.
      * split; [done|]. intros _. right. by left.
      * split; [|by intros [_ ?]]. intros [H|[]]. discriminate.
  - intros Hnone Hclosed Hreq. rewrite Hclosed, Hreq, Hnone. simpl.
    eexists. reflexivity.
  - intros Hnone. rewrite get_total_requests_run. by rewrite Hnone.
Qed.

End Accounting.

(** ** The properties on concrete runs *)


Lemma open_circuit_sets_flag_and_clears_counters_witness :
  store (snd (open_circuit ratio_breaker three_requests))
    !! Some "circuit_fails"%string
  = Some (Entry 1 (Some 30))
  /\ flag_set ratio_breaker (snd (open_circuit ratio_breaker three_requests))
     = true.
Proof.
  pose proof (open_circuit_sets_flag_and_clears_counters ratio_breaker
                three_requests) as H.
  cbv zeta in H. destruct H as (_ & _ & _ & _ & _ & _ & _ & _ & H).
  apply H; discriminate.
Defined.

Lemma open_circuit_idempotent_witness :
  store (snd ((open_circuit ratio_breaker ;; open_circuit ratio_breaker)
                three_requests))
  = store (snd (open_circuit ratio_breaker three_requests))
  /\ store (snd (open_circuit ratio_breaker three_requests))
       !! Some "circuit_fails"%string
     = Some (Entry 1 (Some 30)).
Proof.
  pose proof (open_circuit_idempotent ratio_breaker three_requests) as H.
  cbv zeta in H. destruct H as ((_ & Hseq) & _ & _ & _ & _ & Hflag).
  split; [exact Hseq | apply Hflag; discriminate].
Defined.

(** C6 as stated fails: the policy of [ratio_breaker] enables request
    counting, yet an exit that finds the circuit open does not touch the
    request counter.  This happens in a guarded call that entered with
    the circuit closed when a racing caller opens it meanwhile. *)
Lemma exit_skips_request_count_when_open :
  should_increase_request_count (rule ratio_breaker) = true
  /\ emitted (__aexit__ ratio_breaker None) raced_open
     = [CacheGet (Some "circuit_fails"%string)]
  /\ counter (Some "requests"%string)
       (store (snd (__aexit__ ratio_breaker None raced_open)))
     = counter (Some "requests"%string) (store raced_open)
  /\ fst (__call__ ratio_breaker raced_operation tt three_requests) = Return 7
  /\ ~ In (CacheIncr (Some "requests"%string))
          (emitted (__call__ ratio_breaker raced_operation tt) three_requests)
  /\ counter (Some "requests"%string)
       (store (snd (__call__ ratio_breaker raced_operation tt three_requests)))
     = 3.
Proof.
  repeat split; try reflexivity.
  vm_compute. intros H. repeat destruct H as [H|H]; try discriminate H.
  exact H.
Qed.

Lemma exit_counts_request_when_closed_witness :
  flag_set ratio_breaker three_requests = false
  /\ should_increase_request_count (rule ratio_breaker) = true
  /\ counter (Some "requests"%string)
       (store (snd (__aexit__ ratio_breaker None three_requests)))
     = 4.
Proof.
  split; [reflexivity|]. split; [reflexivity|].
  pose proof (exit_counts_request_when_closed ratio_breaker None
                three_requests eq_refl eq_refl) as H.
  cbv zeta in H. destruct H as (_ & _ & H).
  exact (H eq_refl).
Defined.

(** C7 as stated fails: request accounting runs for a policy that counts
    requests but not failures, and no [add] is issued; the failure
    counter is still missing afterwards. *)
Lemma request_accounting_without_failure_counter :
  flag_set requests_only_breaker empty_state = false
  /\ should_increase_request_count (rule requests_only_breaker) = true
  /\ emitted (_increase_request_count requests_only_breaker) empty_state
     = [CacheGet (Some "circuit_fails"%string);
        CacheIncr (Some "requests"%string);
        CacheExpire (Some "requests"%string) (Some 60)]
  /\ store (snd (_increase_request_count requests_only_breaker empty_state))
       !! Some "fails"%string
     = None.
Proof. repeat split; reflexivity. Qed.

Lemma request_accounting_seeds_failure_counter_witness :
  flag_set ratio_breaker empty_state = false
  /\ store (snd (_increase_request_count ratio_breaker empty_state))
       !! Some "fails"%string
     = Some (Entry 0 (Some 60))
  /\ ttl_of (Some "requests"%string)
       (store (snd (_increase_request_count ratio_breaker empty_state)))
     = Some 60.
Proof.
  split; [reflexivity|].
  pose proof (request_accounting_seeds_failure_counter ratio_breaker
                empty_state eq_refl eq_refl eq_refl) as H.
  cbv zeta in H. destruct H as (_ & _ & Hadd & _ & Httl).
  split; [apply Hadd; reflexivity|].
  apply Httl; [reflexivity | reflexivity | discriminate].
Defined.

Lemma failure_accounting_skips_or_counts_witness :
  store (snd (_increase_failure_count ratio_breaker raced_open))
  = store raced_open
  /\ Store.get (Some "fails"%string)
       (store (snd (_increase_failure_count ratio_breaker three_requests)))
     = Some 2.
Proof.
  pose proof (failure_accounting_skips_or_counts ratio_breaker raced_open)
    as Hskip.
  pose proof (failure_accounting_skips_or_counts ratio_breaker three_requests)
    as Hcount.
  cbv zeta in Hskip, Hcount.
  destruct Hskip as (_ & Hskip & _). destruct Hcount as (_ & _ & Hcount).
  split.
  - apply Hskip. left. reflexivity.
  - apply (Hcount eq_refl eq_refl).
Defined.

Lemma request_accounting_not_gated_by_key_witness :
  request_cache_key (rule keyless_breaker) = None
  /\ (exists rest,
         emitted (_increase_request_count keyless_breaker) empty_state
         = CacheGet (Some "circuit_fails"%string) :: CacheIncr None :: rest)
  /\ get_total_requests keyless_breaker empty_state = (Return 0, empty_state).
Proof.
  pose proof (request_accounting_not_gated_by_key keyless_breaker empty_state)
    as (_ & Hincr & Hread).
  split; [reflexivity|].
  split; [exact (Hincr eq_refl eq_refl eq_refl) | exact (Hread eq_refl)].
Defined.

(** The scenarios of the policies: the third failure in a row trips
    [count_breaker], and the call after that is rejected on entry. *)
Example third_failure_trips :
  let boom : unit -> M string Z := fun _ => raise "ValueError"%string in
  let r1 := __call__ count_breaker boom tt empty_state in
  let r2 := __call__ count_breaker boom tt (snd r1) in
  let r3 := __call__ count_breaker boom tt (snd r2) in
  let r4 := __call__ count_breaker boom tt (snd r3) in
  fst r1 = Raise "ValueError"%string
  /\ fst r2 = Raise "ValueError"%string
  /\ fst r3 = Raise "CircuitOpen"%string
  /\ fst r4 = Raise "CircuitOpen"%string
  /\ emitted (__call__ count_breaker boom tt) (snd r3)
     = [CacheGet (Some "circuit_fails"%string)].
Proof. repeat split; reflexivity. Qed.

(** Two failures among four requests reach the ratio on the fourth call. *)
Example ratio_trips_on_fourth_call :
  let boom : unit -> M string Z := fun _ => raise "ValueError"%string in
  let fine : unit -> M string Z := fun _ => ret 0 in
  let r1 := __call__ ratio_breaker fine tt empty_state in
  let r2 := __call__ ratio_breaker boom tt (snd r1) in
  let r3 := __call__ ratio_breaker fine tt (snd r2) in
  let r4 := __call__ ratio_breaker boom tt (snd r3) in
  fst r1 = Return 0
  /\ fst r2 = Raise "ValueError"%string
  /\ fst r3 = Return 0
  /\ fst r4 = Raise "CircuitOpen"%string.
Proof. repeat split; reflexivity. Qed.

(** A failure counter seeded at 0 by request accounting makes the first
    failure of the window return 1 from the increment, so [_incr] assigns
    the time-to-live of the failure counter once more at that point. *)
Example first_failure_after_seeding :
  let boom : unit -> M string Z := fun _ => raise "ValueError"%string in
  let fine : unit -> M string Z := fun _ => ret 0 in
  let r1 := __call__ ratio_breaker fine tt empty_state in
  store (snd r1) !! Some "fails"%string = Some (Entry 0 (Some 60))
  /\ emitted (__call__ ratio_breaker boom tt) (snd r1)
     = [CacheGet (Some "circuit_fails"%string);
        CacheGet (Some "circuit_fails"%string);
        CacheIncr (Some "requests"%string);
        CacheAdd (Some "fails"%string) 0 (Some 60);
        CacheGet (Some "circuit_fails"%string);
        CacheIncr (Some "fails"%string);
        CacheExpire (Some "fails"%string) (Some 60);
        CacheGet (Some "requests"%string);
        LogIncreaseFailures 1 2;
        CacheGet (Some "fails"%string);
        CacheGet (Some "requests"%string)].
Proof. split; reflexivity. Qed.

(** ** Reads *)

Section Reads.

Context {exc : Type}.
Implicit Types (cb : @CircuitBreaker exc) (s : state) (k : pykey).

(** X1. The three reads never write to the cache.  [is_circuit_open]
    answers false exactly when the flag is missing or stored as 0, and a
    missing counter reads as 0. *)
Theorem reads_preserve_cache_and_default cb s :
  let ck := Some (circuit_cache_key cb) in
  let fk := Some (failure_cache_key (rule cb)) in
  (store (snd (is_circuit_open cb s)) = store s
   /\ store (snd (get_total_failures cb s)) = store s
   /\ store (snd (get_total_requests cb s)) = store s)
  /\ (fst (is_circuit_open cb s) = Return false
      <-> store s !! ck = None \/ exists t, store s !! ck = Some (Entry 0 t))
  /\ (store s !! fk = None -> fst (get_total_failures cb s) = Return 0)
  /\ (store s !! request_cache_key (rule cb) = None ->
      fst (get_total_requests cb s) = Return 0).
Proof.
  intros ck fk.
  split.
  { rewrite is_circuit_open_run, get_total_failures_run.
    by rewrite get_total_requests_store. }
  split.
  { rewrite is_circuit_open_run. cbn [fst]. unfold Store.get. fold ck.
    destruct (store s !! ck) as [[v t]|] eqn:E; simpl.
    - destruct (Z.eqb_spec v 0) as [->|Hv]; simpl.
      + split; [intros _; right; by exists t | done].
      + split; [discriminate|]. intros [?|[t' ?]]; simplify_eq.
    - split; [by left | done]. }
  split.
  { intros Hnone. rewrite get_total_failures_run. cbn [fst].
    unfold counter, Store.get. fold fk. by rewrite Hnone. }
  intros Hnone. rewrite get_total_requests_run.
  destruct (key_truthy (request_cache_key (rule cb))); [|done].
  cbn [fst]. unfold counter, Store.get. by rewrite Hnone.
Qed.

End Reads.

(** ** The guarded call as a whole *)

Section Guarded.

Context {exc : Type}.
Implicit Types (cb : @CircuitBreaker exc) (s : state) (k : pykey).

Lemma request_accounting_failure_counter cb s :
  request_cache_key (rule cb) <> Some (failure_cache_key (rule cb)) ->
  counter (Some (failure_cache_key (rule cb)))
    (store (snd (_increase_request_count cb s)))
  = counter (Some (failure_cache_key (rule cb))) (store s).
Proof.
  intros Hne. rewrite _increase_request_count_run. cbn [snd].
  destruct (flag_set cb s || negb (should_increase_request_count (rule cb)));
    [done|].
  cbv zeta.
  assert (Hfk : store (snd (@_incr exc (request_cache_key (rule cb))
                              (failure_timeout cb) (flag_read cb s)))
                  !! Some (failure_cache_key (rule cb))
                = store s !! Some (failure_cache_key (rule cb))).
  { rewrite _incr_store. cbn [flag_read store]. by rewrite lookup_insert_ne. }
  destruct (should_increase_failure_count (rule cb)); cbn [store];
    unfold counter, Store.get, Store.add; rewrite ?Hfk; [|done].
  destruct (store s !! Some (failure_cache_key (rule cb))) eqn:E.
  - by rewrite Hfk.
  - by rewrite lookup_insert_eq.
Qed.

(** X2. A request key that is the empty string is written but never
    read: [get_total_requests] answers 0 without a cache call whatever is
    stored under that key, so the policy is always asked with 0 requests,
    while request accounting increments the key and [open_circuit]
    deletes it. *)
Theorem blank_request_key_written_not_read cb s :
  request_cache_key (rule cb) = Some EmptyString ->
  get_total_requests cb s = (Return 0, s)
  /\ total_requests cb (accounted cb s) = 0
  /\ (flag_set cb s = false ->
      should_increase_request_count (rule cb) = true ->
      In (CacheIncr (Some EmptyString)) (emitted (_increase_request_count cb) s)
      /\ counter (Some EmptyString) (store (snd (_increase_request_count cb s)))
         = counter (Some EmptyString) (store s) + 1)
  /\ In (CacheDelete (Some EmptyString)) (emitted (open_circuit cb) s).
Proof.
  intros Hblank.
  split; [rewrite get_total_requests_run; by rewrite Hblank|].
  split; [unfold total_requests; by rewrite Hblank|].
  split.
  - intros Hclosed Hreq. split.
    + rewrite _increase_request_count_emitted.
      unfold request_accounting_calls, incr_calls.
      rewrite Hclosed, Hreq, Hblank. simpl. right. by left.
    + rewrite <- Hblank. by apply request_accounting_counter.
  - rewrite (emitted_app _ s (open_circuit_writes cb ++ [NotifyOpenCircuit])).
    + unfold open_circuit_writes. rewrite Hblank. simpl. right. right. by left.
    + by rewrite open_circuit_run.
Qed.

(** X3. An exit without an exception, or with one the filter does not
    accept, never raises and never opens the circuit, whatever the
    policy would answer: it only does the request accounting.  The
    failure total is left as it reads (when the two counters have
    different keys), and the [async with] block hands on the outcome of
    its body. *)
Theorem uncounted_exit_only_counts_request {R : Type} cb
    (exc_type : option exc) s :
  _is_catchable_exception cb exc_type = false ->
  __aexit__ cb exc_type s = (Return tt, snd (_increase_request_count cb s))
  /\ emitted (__aexit__ cb exc_type) s = request_accounting_calls cb s
  /\ existsb is_opening (emitted (__aexit__ cb exc_type) s) = false
  /\ (request_cache_key (rule cb) <> Some (failure_cache_key (rule cb)) ->
      counter (Some (failure_cache_key (rule cb)))
        (store (snd (__aexit__ cb exc_type s)))
      = counter (Some (failure_cache_key (rule cb))) (store s))
  /\ (forall (body : M exc R) s0 (r : R),
         flag_set cb s0 = false ->
         exc_type = None ->
         body (flag_read cb s0) = (Return r, s) ->
         async_with cb body s0 = (Return r, snd (_increase_request_count cb s)))
  /\ (forall (body : M exc R) s0 (e : exc),
         flag_set cb s0 = false ->
         exc_type = Some e ->
         body (flag_read cb s0) = (Raise e, s) ->
         async_with cb body s0 = (Raise e, snd (_increase_request_count cb s))).
Proof.
  intros Hnot.
  assert (Hexit : __aexit__ cb exc_type s
                  = (Return tt, snd (_increase_request_count cb s))).
  { rewrite __aexit___run. by rewrite Hnot. }
  assert (Hem : emitted (__aexit__ cb exc_type) s
                = request_accounting_calls cb s).
  { apply emitted_app. rewrite Hexit. cbn [snd].
    apply _increase_request_count_trace. }
  split; [done|]. split; [done|].
  split; [rewrite Hem; apply request_accounting_never_opens|].
  split.
  { intros Hne. rewrite Hexit. cbn [snd].
    by apply request_accounting_failure_counter. }
  split.
  - intros body s0 r Hclosed -> Hbody.
    unfold async_with. by rewrite __aenter___run, Hclosed, Hbody, Hexit.
  - intros body s0 e Hclosed -> Hbody.
    unfold async_with. by rewrite __aenter___run, Hclosed, Hbody, Hexit.
Qed.

(** X4. The guarded call never invents an outcome.  A value it returns
    is the value the protected operation returned; an exception it
    raises is either the configured [failure_exception] or the exception
    the protected operation raised.  In both pass-through cases the
    circuit was closed on entry. *)
Theorem guarded_call_outcome_provenance {R : Type} cb (body : M exc R) s :
  match fst (async_with cb body s) with
  | Return r =>
      flag_set cb s = false /\ fst (body (flag_read cb s)) = Return r
  | Raise e =>
      e = failure_exception cb
      \/ (flag_set cb s = false /\ fst (body (flag_read cb s)) = Raise e)
  end.
Proof.
  unfold async_with. rewrite __aenter___run.
  destruct (flag_set cb s); [by left|].
  destruct (body (flag_read cb s)) as [[r|e] s2]; rewrite __aexit___run;
    cbv zeta.
  - by cbn [_is_catchable_exception].
  - destruct (_is_catchable_exception cb (Some e)); [|by right].
    destruct (should_open_circuit _ _ _); [by left | by right].
Qed.

End Guarded.

(** ** Which keys the accounting touches *)

Lemma add_lookup_ne (k k' : pykey) (v : Z) (t : Timeout)
    (m : gmap pykey entry) :
  k' <> k -> Store.add k v t m !! k' = m !! k'.
Proof.
  intros Hne. unfold Store.add. destruct (m !! k); [done|].
  by rewrite lookup_insert_ne.
Qed.

Section Frames.

Context {exc : Type}.
Implicit Types (cb : @CircuitBreaker exc) (s : state) (k : pykey).

Lemma flag_set_ext cb s s' :
  store s' !! Some (circuit_cache_key cb) = store s !! Some (circuit_cache_key cb) ->
  flag_set cb s' = flag_set cb s.
Proof. intros H. unfold flag_set, Store.get. by rewrite H. Qed.

Lemma request_accounting_frame cb s k :
  k <> request_cache_key (rule cb) ->
  k <> Some (failure_cache_key (rule cb)) ->
  store (snd (_increase_request_count cb s)) !! k = store s !! k.
Proof.
  intros Hr Hf. rewrite _increase_request_count_run. cbn [snd].
  destruct (flag_set cb s || negb (should_increase_request_count (rule cb)));
    [done|].
  cbv zeta.
  destruct (should_increase_failure_count (rule cb)); cbn [store];
    rewrite ?add_lookup_ne by done;
    rewrite _incr_store; cbn [flag_read store]; by rewrite lookup_insert_ne.
Qed.

Lemma failure_accounting_frame cb s k :
  k <> Some (failure_cache_key (rule cb)) ->
  store (snd (_increase_failure_count cb s)) !! k = store s !! k.
Proof.
  intros Hf. rewrite _increase_failure_count_run. cbn [snd].
  destruct (flag_set cb s || negb (should_increase_failure_count (rule cb)));
    [done|].
  cbv zeta. cbn [store]. rewrite get_total_requests_store, _incr_store.
  cbn [flag_read store]. by rewrite lookup_insert_ne.
Qed.

Lemma failure_accounting_counter cb s :
  flag_set cb s = false ->
  should_increase_failure_count (rule cb) = true ->
  counter (Some (failure_cache_key (rule cb)))
    (store (snd (_increase_failure_count cb s)))
  = counter (Some (failure_cache_key (rule cb))) (store s) + 1.
Proof.
  intros Hclosed Hfail.
  rewrite _increase_failure_count_run, Hclosed, Hfail. cbn [snd orb negb].
  cbv zeta. cbn [store]. rewrite get_total_requests_store, _incr_store.
  unfold counter at 1, Store.get. by rewrite lookup_insert_eq.
Qed.

Lemma failure_accounting_skipped cb s :
  flag_set cb s || negb (should_increase_failure_count (rule cb)) = true ->
  snd (_increase_failure_count cb s) = flag_read cb s.
Proof. intros H. by rewrite _increase_failure_count_run, H. Qed.

Lemma request_accounting_skipped cb s :
  flag_set cb s || negb (should_increase_request_count (rule cb)) = true ->
  snd (_increase_request_count cb s) = flag_read cb s.
Proof. intros H. by rewrite _increase_request_count_run, H. Qed.

(** The cache after an exit. *)
Lemma __aexit___store cb (exc_type : option exc) s :
  store (snd (__aexit__ cb exc_type s))
  = if _is_catchable_exception cb exc_type
    then
      if should_open_circuit (rule cb) (total_failures cb (accounted cb s))
           (total_requests cb (accounted cb s))
      then store (snd (open_circuit cb (accounted cb s)))
      else store (accounted cb s)
    else store (snd (_increase_request_count cb s)).
Proof.
  rewrite __aexit___run.
  destruct (_is_catchable_exception cb exc_type); [|done].
  cbv zeta. destruct (should_open_circuit _ _ _); [|done].
  by rewrite open_circuit_run.
Qed.

Lemma accounted_frame cb s k :
  k <> request_cache_key (rule cb) ->
  k <> Some (failure_cache_key (rule cb)) ->
  store (accounted cb s) !! k = store s !! k.
Proof.
  intros Hr Hf. unfold accounted.
  by rewrite failure_accounting_frame, request_accounting_frame.
Qed.

(** X5. Neither the exit of the guarded scope nor [open_circuit]
    touches a key other than the flag key and the two counter keys of the
    breaker. *)
Theorem engine_touches_only_its_keys cb (exc_type : option exc) s k :
  k <> Some (circuit_cache_key cb) ->
  k <> Some (failure_cache_key (rule cb)) ->
  k <> request_cache_key (rule cb) ->
  store (snd (__aexit__ cb exc_type s)) !! k = store s !! k
  /\ store (snd (open_circuit cb s)) !! k = store s !! k
  /\ store (snd (_increase_request_count cb s)) !! k = store s !! k
  /\ store (snd (_increase_failure_count cb s)) !! k = store s !! k.
Proof.
  intros Hc Hf Hr.
  assert (Hopen : forall s', store (snd (open_circuit cb s')) !! k
                             = store s' !! k).
  { intros s'. rewrite open_circuit_store_lookup, open_circuit_last_write.
    rewrite decide_False by congruence.
    rewrite decide_False by (intros [? ?]; congruence).
    by rewrite decide_False by congruence. }
  split; [|split; [apply Hopen|split]].
  - rewrite __aexit___store.
    destruct (_is_catchable_exception cb exc_type).
    + destruct (should_open_circuit _ _ _);
        rewrite ?Hopen; by apply accounted_frame.
    + by apply request_accounting_frame.
  - by apply request_accounting_frame.
  - by apply failure_accounting_frame.
Qed.

End Frames.

(** ** From one call to the next *)

Section Sequences.

Context {exc : Type}.
Implicit Types (cb : @CircuitBreaker exc) (s : state) (k : pykey).

(** X6. An exit that trips leaves the circuit open for the next caller:
    when [__aexit__] decides to open on a catchable exception, and the
    flag key is not the key of a counter, the flag is set in the state
    it leaves, both totals read 0 there, and the next guarded call is
    rejected with [failure_exception] after the flag read alone. *)
Theorem tripping_exit_rejects_next_call {A R : Type} cb (e : exc) s
    (func : A -> M exc R) (args : A) :
  catch_exceptions cb e = true ->
  circuit_cache_key cb <> failure_cache_key (rule cb) ->
  request_cache_key (rule cb) <> Some (circuit_cache_key cb) ->
  should_open_circuit (rule cb) (total_failures cb (accounted cb s))
    (total_requests cb (accounted cb s)) = true ->
  let s' := snd (__aexit__ cb (Some e) s) in
  fst (__aexit__ cb (Some e) s) = Raise (failure_exception cb)
  /\ flag_set cb s' = true
  /\ fst (get_total_failures cb s') = Return 0
  /\ fst (get_total_requests cb s') = Return 0
  /\ __call__ cb func args s' = (Raise (failure_exception cb), flag_read cb s').
Proof.
  intros Hcatch Hcf Hcr Htrip s'.
  assert (Hstore : store s' = store (snd (open_circuit cb (accounted cb s)))).
  { unfold s'. rewrite __aexit___store. simpl. by rewrite Hcatch, Htrip. }
  destruct (open_circuit_end_state cb (accounted cb s)) as (Hf & Hr & Hflag).
  rewrite <- Hstore in Hf, Hr, Hflag.
  assert (Hset : flag_set cb s' = true).
  { unfold flag_set, Store.get. by rewrite (Hflag Hcf Hcr). }
  split.
  { rewrite __aexit___run. simpl. by rewrite Hcatch, Htrip. }
  split; [done|].
  split.
  { rewrite get_total_failures_run. cbn [fst]. unfold counter, Store.get.
    by rewrite Hf. }
  split.
  { rewrite get_total_requests_run.
    destruct (request_cache_key (rule cb)) as [rk|] eqn:Erk; [|done].
    destruct (key_truthy (Some rk)); [|done].
    cbn [fst]. unfold counter, Store.get. by rewrite (Hr rk eq_refl). }
  unfold __call__, async_with. by rewrite __aenter___run, Hset.
Qed.

(** X7. An exit that finds the circuit already open counts nothing:
    both accounting steps only read the flag, so the cache is as it was
    when the policy is asked.  If the policy does not open, the exit
    leaves the cache untouched; if it does, the flag is written again. *)
Theorem exit_on_open_circuit_counts_nothing cb (exc_type : option exc) s :
  flag_set cb s = true ->
  let trip := should_open_circuit (rule cb) (total_failures cb s)
                (total_requests cb s) in
  store (accounted cb s) = store s
  /\ emitted (_increase_request_count cb ;; _increase_failure_count cb) s
     = [CacheGet (Some (circuit_cache_key cb));
        CacheGet (Some (circuit_cache_key cb))]
  /\ (_is_catchable_exception cb exc_type && trip = false ->
      fst (__aexit__ cb exc_type s) = Return tt
      /\ store (snd (__aexit__ cb exc_type s)) = store s)
  /\ (_is_catchable_exception cb exc_type && trip = true ->
      fst (__aexit__ cb exc_type s) = Raise (failure_exception cb)
      /\ In (CacheSet (Some (circuit_cache_key cb)) 1 (circuit_timeout cb))
            (emitted (__aexit__ cb exc_type) s)).
Proof.
  intros Hopen trip.
  assert (Hacc : accounted cb s = flag_read cb (flag_read cb s)).
  { unfold accounted.
    rewrite (request_accounting_skipped cb s) by by rewrite Hopen.
    apply failure_accounting_skipped.
    by rewrite (flag_set_ext cb s (flag_read cb s)), Hopen. }
  assert (Htf : total_failures cb (accounted cb s) = total_failures cb s)
    by by rewrite Hacc.
  assert (Htr : total_requests cb (accounted cb s) = total_requests cb s)
    by by rewrite Hacc.
  split; [by rewrite Hacc|].
  split.
  { apply emitted_app. rewrite accounting_run, Hacc. cbn [snd flag_read trace].
    by rewrite <- app_assoc. }
  split.
  - intros Hno. rewrite __aexit___store, __aexit___run. cbv zeta.
    rewrite Htf, Htr. fold trip.
    destruct (_is_catchable_exception cb exc_type).
    + simpl in Hno. rewrite Hno. by rewrite Hacc.
    + split; [done|].
      by rewrite (request_accounting_skipped cb s) by by rewrite Hopen.
  - intros Hyes. apply andb_true_iff in Hyes as [Hcatch Htrip].
    rewrite __aexit___run. cbv zeta. rewrite Htf, Htr. fold trip.
    rewrite Hcatch, Htrip. split; [done|].
    rewrite (emitted_app _ s
               ([CacheGet (Some (circuit_cache_key cb));
                 CacheGet (Some (circuit_cache_key cb))]
                ++ (CacheGet (Some (failure_cache_key (rule cb)))
                      :: request_read_calls cb)
                ++ open_circuit_writes cb
                ++ [NotifyOpenCircuit; NotifyMaxFailuresExceeded])).
    + rewrite !in_app_iff. right. right. left. by left.
    + rewrite __aexit___run. cbv zeta. rewrite Htf, Htr. fold trip.
      rewrite Hcatch, Htrip. unfold tripped, totals_read. cbn [snd trace].
      rewrite Hacc. cbn [flag_read trace]. by rewrite <- !app_assoc.
Qed.

(** The totals after both accounting steps, for a closed circuit and
    three different keys. *)
Lemma accounted_totals cb s :
  flag_set cb s = false ->
  circuit_cache_key cb <> failure_cache_key (rule cb) ->
  request_cache_key (rule cb) <> Some (circuit_cache_key cb) ->
  request_cache_key (rule cb) <> Some (failure_cache_key (rule cb)) ->
  let fk := Some (failure_cache_key (rule cb)) in
  let rk := request_cache_key (rule cb) in
  let s2 := accounted cb s in
  flag_set cb s2 = false
  /\ total_failures cb s2
     = counter fk (store s)
       + (if should_increase_failure_count (rule cb) then 1 else 0)
  /\ counter rk (store s2)
     = counter rk (store s)
       + (if should_increase_request_count (rule cb) then 1 else 0).
Proof.
  intros Hclosed Hcf Hcr Hrf fk rk s2.
  set (s1 := snd (_increase_request_count cb s)).
  assert (Hflag1 : flag_set cb s1 = false).
  { rewrite <- Hclosed. apply flag_set_ext.
    apply request_accounting_frame; congruence. }
  split; [|split].
  - rewrite <- Hclosed. apply flag_set_ext.
    apply accounted_frame; congruence.
  - unfold total_failures, s2, accounted. fold s1.
    destruct (should_increase_failure_count (rule cb)) eqn:Hfail.
    + rewrite failure_accounting_counter by done.
      unfold s1. by rewrite request_accounting_failure_counter.
    + rewrite failure_accounting_skipped by (rewrite Hfail; apply orb_true_r).
      cbn [flag_read store]. unfold s1.
      rewrite request_accounting_failure_counter by done. subst fk. lia.
  - unfold s2, accounted. fold s1.
    unfold counter at 1, Store.get.
    rewrite failure_accounting_frame by (subst rk; congruence).
    fold (Store.get rk (store s1)). fold (counter rk (store s1)).
    destruct (should_increase_request_count (rule cb)) eqn:Hreq.
    + by apply request_accounting_counter.
    + unfold s1.
      rewrite request_accounting_skipped
        by (rewrite Hreq; apply orb_true_r).
      cbn [flag_read store]. subst rk. lia.
Qed.

(** X8. On a failed exit with the circuit closed the policy is asked
    with totals that already include this call: the failure total is one
    more than before when the policy counts failures, and the request
    counter is one more than before when it counts requests.  This needs
    the three keys of the breaker to be different. *)
Theorem policy_sees_this_call cb s :
  flag_set cb s = false ->
  circuit_cache_key cb <> failure_cache_key (rule cb) ->
  request_cache_key (rule cb) <> Some (circuit_cache_key cb) ->
  request_cache_key (rule cb) <> Some (failure_cache_key (rule cb)) ->
  let fk := Some (failure_cache_key (rule cb)) in
  let rk := request_cache_key (rule cb) in
  let s2 := accounted cb s in
  gather (get_total_failures cb) (get_total_requests cb) s2
  = (Return (total_failures cb s2, total_requests cb s2), totals_read cb s2)
  /\ flag_set cb s2 = false
  /\ total_failures cb s2
     = counter fk (store s)
       + (if should_increase_failure_count (rule cb) then 1 else 0)
  /\ counter rk (store s2)
     = counter rk (store s)
       + (if should_increase_request_count (rule cb) then 1 else 0).
Proof.
  intros Hclosed Hcf Hcr Hrf fk rk s2.
  split; [apply gather_totals_run|].
  by apply accounted_totals.
Qed.

(** One failed exit that does not trip. *)
Lemma failed_exit_step cb (e : exc) s :
  catch_exceptions cb e = true ->
  should_increase_failure_count (rule cb) = true ->
  flag_set cb s = false ->
  circuit_cache_key cb <> failure_cache_key (rule cb) ->
  request_cache_key (rule cb) <> Some (circuit_cache_key cb) ->
  request_cache_key (rule cb) <> Some (failure_cache_key (rule cb)) ->
  let c := counter (Some (failure_cache_key (rule cb))) (store s) in
  (forall r, should_open_circuit (rule cb) (c + 1) r = false) ->
  let s' := snd (__aexit__ cb (Some e) s) in
  fst (__aexit__ cb (Some e) s) = Return tt
  /\ flag_set cb s' = false
  /\ counter (Some (failure_cache_key (rule cb))) (store s') = c + 1.
Proof.
  intros Hcatch Hfail Hclosed Hcf Hcr Hrf c Hno s'.
  destruct (accounted_totals cb s Hclosed Hcf Hcr Hrf) as (Hflag & Htf & _).
  rewrite Hfail in Htf.
  assert (Hexit : __aexit__ cb (Some e) s
                  = (Return tt, totals_read cb (accounted cb s))).
  { rewrite __aexit___run. simpl. rewrite Hcatch. cbv zeta.
    rewrite Htf. fold c. by rewrite Hno. }
  unfold s'. rewrite Hexit. cbn [fst snd].
  split; [done|]. split; [done|]. exact Htf.
Qed.

(** X9. Consecutive failures are counted one by one.  With the circuit
    closed, three different keys and a policy that counts failures and
    does not open for the totals reached on the way, [n] failed exits in
    a row all return, leave the circuit closed and raise the failure
    counter by exactly [n]; if the policy opens for the next total, the
    exit after them raises [failure_exception]. *)
Theorem consecutive_failures_are_counted cb (e : exc) s (n : nat) :
  catch_exceptions cb e = true ->
  should_increase_failure_count (rule cb) = true ->
  flag_set cb s = false ->
  circuit_cache_key cb <> failure_cache_key (rule cb) ->
  request_cache_key (rule cb) <> Some (circuit_cache_key cb) ->
  request_cache_key (rule cb) <> Some (failure_cache_key (rule cb)) ->
  let fk := Some (failure_cache_key (rule cb)) in
  let c := counter fk (store s) in
  (forall j r, 0 < j <= Z.of_nat n ->
               should_open_circuit (rule cb) (c + j) r = false) ->
  let sn := failed_exits cb e n s in
  flag_set cb sn = false
  /\ counter fk (store sn) = c + Z.of_nat n
  /\ (forall m, (m < n)%nat ->
                fst (__aexit__ cb (Some e) (failed_exits cb e m s)) = Return tt)
  /\ ((forall r, should_open_circuit (rule cb) (c + Z.of_nat n + 1) r = true) ->
      fst (__aexit__ cb (Some e) sn) = Raise (failure_exception cb)).
Proof.
  intros Hcatch Hfail Hclosed Hcf Hcr Hrf fk c Hno sn.
  assert (Hrun : flag_set cb sn = false
                 /\ counter fk (store sn) = c + Z.of_nat n
                 /\ (forall m, (m < n)%nat ->
                               fst (__aexit__ cb (Some e) (failed_exits cb e m s))
                               = Return tt)).
  { subst sn. induction n as [|n IH].
    - simpl. split; [done|]. split; [subst c; lia|]. intros m Hm. lia.
    - destruct IH as (Hflag & Hcount & Hprev).
      { intros j r Hj. apply Hno. lia. }
      destruct (failed_exit_step cb e (failed_exits cb e n s)
                  Hcatch Hfail Hflag Hcf Hcr Hrf) as (Hret & Hflag' & Hcount').
      { intros r. fold fk. rewrite Hcount.
        replace (c + Z.of_nat n + 1) with (c + (Z.of_nat n + 1)) by lia.
        apply Hno. lia. }
      fold fk in Hcount'. rewrite Hcount in Hcount'.
      cbn [failed_exits]. split; [done|]. split; [rewrite Hcount'; lia|].
      intros m Hm. destruct (decide (m = n)) as [->|Hne]; [done|].
      apply Hprev. lia. }
  destruct Hrun as (Hflag & Hcount & Hprev).
  split; [done|]. split; [done|]. split; [done|].
  intros Htrip.
  destruct (accounted_totals cb sn Hflag Hcf Hcr Hrf) as (_ & Htf & _).
  rewrite Hfail in Htf. fold fk in Htf. rewrite Hcount in Htf.
  rewrite __aexit___run. simpl. rewrite Hcatch. cbv zeta.
  by rewrite Htf, Htrip.
Qed.

(** X10. In a row of increments of a counter that was missing, the
    time-to-live is assigned once, by the first of them: after [n + 1]
    calls of [_incr] the counter stands at [n + 1] with the given
    timeout, and the calls made are one [incr], one [expire] and then
    [n] more [incr]. *)
Theorem repeated_incr_assigns_ttl_once k (timeout : Timeout) s (n : nat) :
  store s !! k = None ->
  let sn := incr_times exc k timeout (S n) s in
  store sn = <[k := Entry (Z.of_nat n + 1) timeout]> (store s)
  /\ trace sn
     = trace s ++ CacheIncr k :: CacheExpire k timeout
                 :: repeat (CacheIncr k) n.
Proof.
  intros Habs sn. subst sn. induction n as [|n [IHs IHt]].
  - cbn [incr_times]. rewrite _incr_run. cbv zeta. cbn [snd store trace].
    unfold counter, Store.get. rewrite Habs. done.
  - change (incr_times exc k timeout (S (S n)) s)
      with (snd (@_incr exc k timeout (incr_times exc k timeout (S n) s))).
    rewrite _incr_run. cbv zeta. cbn [snd store trace].
    assert (Hc : counter k (store (incr_times exc k timeout (S n) s))
                 = Z.of_nat n + 1).
    { unfold counter, Store.get. by rewrite IHs, lookup_insert_eq. }
    assert (Ht : ttl_of k (store (incr_times exc k timeout (S n) s))
                 = timeout).
    { unfold ttl_of. by rewrite IHs, lookup_insert_eq. }
    rewrite Hc, Ht.
    destruct (Z.eqb_spec (Z.of_nat n + 1 + 1) 1) as [Heq|_]; [lia|].
    rewrite IHs, IHt, insert_insert_eq. split.
    + do 2 f_equal. lia.
    + rewrite <- app_assoc. cbn [app]. do 3 f_equal.
      symmetry. apply (repeat_cons n (CacheIncr k)).
Qed.

End Sequences.

Section CleanExits.

Context {exc : Type}.
Implicit Types (cb : @CircuitBreaker exc) (s : state) (k : pykey).

(** X11. Exits without an exception count requests and nothing else.
    With the circuit closed and three different keys, [n] such exits in a
    row all return, leave the circuit closed and the failure total as it
    reads, and raise the request counter by [n] when the policy counts
    requests and not at all when it does not, whatever the policy would
    answer to [should_open_circuit]. *)
Theorem clean_exits_count_requests cb s (n : nat) :
  flag_set cb s = false ->
  circuit_cache_key cb <> failure_cache_key (rule cb) ->
  request_cache_key (rule cb) <> Some (circuit_cache_key cb) ->
  request_cache_key (rule cb) <> Some (failure_cache_key (rule cb)) ->
  let fk := Some (failure_cache_key (rule cb)) in
  let rk := request_cache_key (rule cb) in
  let sn := clean_exits cb n s in
  flag_set cb sn = false
  /\ counter rk (store sn)
     = counter rk (store s)
       + (if should_increase_request_count (rule cb) then Z.of_nat n else 0)
  /\ counter fk (store sn) = counter fk (store s)
  /\ fst (__aexit__ cb None sn) = Return tt.
Proof.
  intros Hclosed Hcf Hcr Hrf fk rk sn.
  assert (Hexit : forall s', __aexit__ cb None s'
                             = (Return tt, snd (_increase_request_count cb s'))).
  { intros s'. by rewrite __aexit___run. }
  assert (Hrun : flag_set cb sn = false
                 /\ counter rk (store sn)
                    = counter rk (store s)
                      + (if should_increase_request_count (rule cb)
                         then Z.of_nat n else 0)
                 /\ counter fk (store sn) = counter fk (store s)).
  { subst sn. induction n as [|n (Hflag & Hreq & Hfailc)].
    - simpl. split; [done|]. split; [|done].
      destruct (should_increase_request_count (rule cb)); lia.
    - cbn [clean_exits]. rewrite Hexit. cbn [snd].
      split; [|split].
      + rewrite <- Hflag. apply flag_set_ext.
        apply request_accounting_frame; congruence.
      + destruct (should_increase_request_count (rule cb)) eqn:Hcount.
        * subst rk. rewrite request_accounting_counter by done. lia.
        * rewrite request_accounting_skipped
            by (rewrite Hcount; apply orb_true_r).
          cbn [flag_read store]. lia.
      + subst fk. rewrite request_accounting_failure_counter by done.
        exact Hfailc. }
  destruct Hrun as (Hflag & Hreq & Hfailc).
  split; [done|]. split; [done|]. split; [done|].
  by rewrite Hexit.
Qed.

End CleanExits.

(** ** The further properties on concrete runs *)

Lemma reads_preserve_cache_and_default_witness :
  store empty_state !! Some "fails"%string = None
  /\ fst (get_total_failures count_breaker empty_state) = Return 0.
Proof.
  split; [reflexivity|].
  pose proof (reads_preserve_cache_and_default count_breaker empty_state) as H.
  cbv zeta in H. destruct H as (_ & _ & H & _).
  apply H. reflexivity.
Defined.

Lemma blank_request_key_written_not_read_witness :
  request_cache_key (rule blank_key_breaker) = Some EmptyString
  /\ counter (Some EmptyString) (store blank_counter) = 5
  /\ get_total_requests blank_key_breaker blank_counter
     = (Return 0, blank_counter).
Proof.
  split; [reflexivity|]. split; [reflexivity|].
  apply (blank_request_key_written_not_read blank_key_breaker blank_counter).
  reflexivity.
Defined.

Lemma uncounted_exit_only_counts_request_witness :
  _is_catchable_exception ratio_breaker (Some "CancelledError"%string) = false
  /\ __aexit__ ratio_breaker (Some "CancelledError"%string) three_requests
     = (Return tt, snd (_increase_request_count ratio_breaker three_requests)).
Proof.
  split; [reflexivity|].
  apply (uncounted_exit_only_counts_request (R := Z) ratio_breaker
           (Some "CancelledError"%string) three_requests).
  reflexivity.
Defined.

Lemma engine_touches_only_its_keys_witness :
  store (snd (__aexit__ ratio_breaker (Some "ValueError"%string)
                with_bystander))
    !! Some "other"%string
  = store with_bystander !! Some "other"%string.
Proof.
  apply (engine_touches_only_its_keys ratio_breaker
           (Some "ValueError"%string) with_bystander (Some "other"%string));
    discriminate.
Defined.

Lemma tripping_exit_rejects_next_call_witness :
  catch_exceptions count_breaker "ValueError"%string = true
  /\ should_open_circuit (rule count_breaker)
       (total_failures count_breaker (accounted count_breaker two_failures))
       (total_requests count_breaker (accounted count_breaker two_failures))
     = true
  /\ flag_set count_breaker
       (snd (__aexit__ count_breaker (Some "ValueError"%string) two_failures))
     = true.
Proof.
  split; [reflexivity|]. split; [reflexivity|].
  pose proof (tripping_exit_rejects_next_call count_breaker
                "ValueError"%string two_failures
                (fun n : Z => ret (n + 1)) 41) as H.
  cbv zeta in H.
  destruct H as (_ & H & _); [reflexivity | discriminate | discriminate
                             | reflexivity | exact H].
Defined.

Lemma exit_on_open_circuit_counts_nothing_witness :
  flag_set ratio_breaker raced_open = true
  /\ store (accounted ratio_breaker raced_open) = store raced_open.
Proof.
  split; [reflexivity|].
  pose proof (exit_on_open_circuit_counts_nothing ratio_breaker None
                raced_open eq_refl) as H.
  cbv zeta in H. destruct H as (H & _). exact H.
Defined.

Lemma policy_sees_this_call_witness :
  flag_set ratio_breaker three_requests = false
  /\ total_failures ratio_breaker (accounted ratio_breaker three_requests) = 2
  /\ counter (Some "requests"%string)
       (store (accounted ratio_breaker three_requests))
     = 4.
Proof.
  split; [reflexivity|].
  pose proof (policy_sees_this_call ratio_breaker three_requests) as H.
  cbv zeta in H.
  destruct H as (_ & _ & Hf & Hr);
    [reflexivity | discriminate | discriminate | discriminate |].
  split; [exact Hf | exact Hr].
Defined.

Lemma consecutive_failures_are_counted_witness :
  flag_set count_breaker empty_state = false
  /\ counter (Some "fails"%string)
       (store (failed_exits count_breaker "ValueError"%string 2 empty_state))
     = 2
  /\ fst (__aexit__ count_breaker (Some "ValueError"%string)
            (failed_exits count_breaker "ValueError"%string 2 empty_state))
     = Raise "CircuitOpen"%string.
Proof.
  split; [reflexivity|].
  pose proof (consecutive_failures_are_counted count_breaker
                "ValueError"%string empty_state 2) as H.
  cbv zeta in H.
  destruct H as (_ & Hc & _ & Ht);
    [reflexivity | reflexivity | reflexivity
     | discriminate | discriminate | discriminate | |].
  - intros j r Hj. change ((3 <=? 0 + j) = false). apply Z.leb_gt. lia.
  - split; [exact Hc|]. apply Ht. intros r. reflexivity.
Defined.

Lemma repeated_incr_assigns_ttl_once_witness :
  store empty_state !! Some "fails"%string = None
  /\ trace (incr_times string (Some "fails"%string) (Some 60) 3 empty_state)
     = [CacheIncr (Some "fails"%string);
        CacheExpire (Some "fails"%string) (Some 60);
        CacheIncr (Some "fails"%string);
        CacheIncr (Some "fails"%string)].
Proof.
  split; [reflexivity|].
  pose proof (repeated_incr_assigns_ttl_once (exc := string)
                (Some "fails"%string) (Some 60) empty_state 2 eq_refl) as H.
  cbv zeta in H. destruct H as (_ & H). exact H.
Defined.

Lemma clean_exits_count_requests_witness :
  flag_set ratio_breaker three_requests = false
  /\ counter (Some "requests"%string)
       (store (clean_exits ratio_breaker 3 three_requests))
     = 6
  /\ counter (Some "fails"%string)
       (store (clean_exits ratio_breaker 3 three_requests))
     = 1.
Proof.
  split; [reflexivity|].
  pose proof (clean_exits_count_requests ratio_breaker three_requests 3) as H.
  cbv zeta in H.
  destruct H as (_ & Hr & Hf & _);
    [reflexivity | discriminate | discriminate | discriminate |].
  split; [exact Hr | exact Hf].
Defined.

(** ** The failed exit *)

Section FailedExit.

Context {exc : Type}.
Implicit Types (cb : @CircuitBreaker exc) (s : state) (k : pykey).

Lemma existsb_In_true {A : Type} (p : A -> bool) (l : list A) (x : A) :
  In x l -> p x = true -> existsb p l = true.
Proof. intros Hin Hp. apply existsb_exists. by exists x. Qed.

(** The calls of an exit after a catchable exception. *)
Lemma failed_exit_emitted cb (e : exc) s :
  catch_exceptions cb e = true ->
  emitted (__aexit__ cb (Some e)) s
  = request_accounting_calls cb s
    ++ failure_accounting_calls cb (snd (_increase_request_count cb s))
    ++ (CacheGet (Some (failure_cache_key (rule cb))) :: request_read_calls cb)
    ++ (if should_open_circuit (rule cb) (total_failures cb (accounted cb s))
             (total_requests cb (accounted cb s))
        then [CacheSet (Some (circuit_cache_key cb)) 1 (circuit_timeout cb);
              CacheDelete (Some (failure_cache_key (rule cb)))]
             ++ match request_cache_key (rule cb) with
                | Some rk => [CacheDelete (Some rk)]
                | None => []
                end
             ++ [NotifyOpenCircuit; NotifyMaxFailuresExceeded]
        else []).
Proof.
  intros Hcatch. apply emitted_app.
  rewrite __aexit___run. simpl. rewrite Hcatch. cbv zeta.
  destruct (should_open_circuit _ _ _); unfold tripped, totals_read;
    cbn [snd trace]; rewrite accounted_trace, ?app_nil_r;
    unfold open_circuit_writes; by rewrite <- ?app_assoc.
Qed.

(** C2. On an exit where the protected operation raised a catchable
    exception, the totals are read after request and failure accounting,
    and the policy decides on them.  When [should_open_circuit] is true
    the exit writes the open flag, deletes the counters, calls both hooks
    and raises [failure_exception], which replaces the exception of the
    operation for the caller of the [async with] block; the flag is then
    set in the cache, given that its key is not the key of a counter.
    When it is false the exit returns, writes no flag, calls no hook and
    leaves the cache as the accounting left it, so a closed circuit stays
    closed, and the caller sees the original exception.  The flag is
    written exactly when the policy says so. *)
Theorem failed_exit_trips_iff_policy_opens {R : Type} cb (e : exc) s :
  catch_exceptions cb e = true ->
  let ck := Some (circuit_cache_key cb) in
  let fk := Some (failure_cache_key (rule cb)) in
  let s2 := accounted cb s in
  let trip := should_open_circuit (rule cb) (total_failures cb s2)
                (total_requests cb s2) in
  let s' := snd (__aexit__ cb (Some e) s) in
  (_increase_request_count cb ;; _increase_failure_count cb) s
  = (Return tt, s2)
  /\ gather (get_total_failures cb) (get_total_requests cb) s2
     = (Return (total_failures cb s2, total_requests cb s2), totals_read cb s2)
  /\ __aexit__ cb (Some e) s
     = (if trip
        then (Raise (failure_exception cb),
              snd ((open_circuit cb ;; _notify_max_failures_exceeded)
                     (totals_read cb s2)))
        else (Return tt, totals_read cb s2))
  /\ existsb is_opening (emitted (__aexit__ cb (Some e)) s) = trip
  /\ (trip = false -> store s' = store s2)
  /\ (forall (body : M exc R) s0,
         flag_set cb s0 = false ->
         body (flag_read cb s0) = (Raise e, s) ->
         async_with cb body s0
         = (Raise (if trip then failure_exception cb else e), s'))
  /\ emitted (__aexit__ cb (Some e)) s
     = request_accounting_calls cb s
       ++ failure_accounting_calls cb (snd (_increase_request_count cb s))
       ++ (CacheGet fk :: request_read_calls cb)
       ++ (if trip
           then [CacheSet ck 1 (circuit_timeout cb); CacheDelete fk]
                ++ match request_cache_key (rule cb) with
                   | Some rk => [CacheDelete (Some rk)]
                   | None => []
                   end
                ++ [NotifyOpenCircuit; NotifyMaxFailuresExceeded]
           else [])
  /\ (In (CacheSet ck 1 (circuit_timeout cb)) (emitted (__aexit__ cb (Some e)) s)
      <-> trip = true)
  /\ (trip = true ->
      store s'
      = match request_cache_key (rule cb) with
        | Some rk =>
            Store.delete (Some rk)
              (Store.delete fk (Store.set ck 1 (circuit_timeout cb) (store s2)))
        | None => Store.delete fk (Store.set ck 1 (circuit_timeout cb) (store s2))
        end
      /\ store s' !! fk = None
      /\ (circuit_cache_key cb <> failure_cache_key (rule cb) ->
          request_cache_key (rule cb) <> ck ->
          store s' !! ck = Some (Entry 1 (circuit_timeout cb))
          /\ flag_set cb s' = true))
  /\ (trip = false ->
      circuit_cache_key cb <> failure_cache_key (rule cb) ->
      request_cache_key (rule cb) <> ck ->
      flag_set cb s' = flag_set cb s).
Proof.
  intros Hcatch ck fk s2 trip s'.
  assert (Hexit : __aexit__ cb (Some e) s
                  = if trip
                    then (Raise (failure_exception cb),
                          tripped cb (totals_read cb s2))
                    else (Return tt, totals_read cb s2)).
  { rewrite __aexit___run. simpl. by rewrite Hcatch. }
  assert (Hem := failed_exit_emitted cb e s Hcatch).
  fold s2 trip ck fk in Hem.
  assert (Hopening : existsb is_opening (emitted (__aexit__ cb (Some e)) s)
                     = trip).
  { rewrite Hem, !existsb_app, request_accounting_never_opens,
      failure_accounting_never_opens.
    unfold request_read_calls. destruct trip; split_ifs; reflexivity. }
  split; [apply accounting_run|].
  split; [apply gather_totals_run|].
  split; [by rewrite Hexit, open_and_notify_run|].
  split; [done|].
  split; [intros Hno; unfold s'; by rewrite Hexit, Hno|].
  split.
  { intros body s0 Hclosed Hbody.
    unfold async_with, s'. rewrite __aenter___run, Hclosed, Hbody, Hexit.
    by destruct trip. }
  split; [done|].
  split.
  { split.
    - intros Hin. rewrite <- Hopening.
      by apply (existsb_In_true _ _ _ Hin).
    - intros Htrip. rewrite Hem, Htrip, !in_app_iff.
      right. right. right. left. by left. }
  split.
  - intros Htrip.
    assert (Hstore : store s' = store (snd (open_circuit cb s2))).
    { unfold s'. rewrite Hexit, Htrip, open_circuit_run. reflexivity. }
    destruct (open_circuit_end_state cb s2) as (Hf & _ & Hflag).
    rewrite <- Hstore in Hf, Hflag.
    split.
    { rewrite Hstore, open_circuit_run. cbn [snd store].
      unfold open_circuit_writes.
      by destruct (request_cache_key (rule cb)). }
    split; [done|].
    intros Hcf Hcr. pose proof (Hflag Hcf Hcr) as Hck.
    split; [done|]. unfold flag_set, Store.get. by rewrite Hck.
  - intros Hno Hcf Hcr. subst ck fk.
    apply flag_set_ext. unfold s'. rewrite Hexit, Hno. cbn [snd totals_read store].
    apply accounted_frame; congruence.
Qed.

(** A failure counter that request accounting seeded at 0 makes the
    first failure of the window return 1 from the increment: failure
    accounting then calls [expire] on the failure counter, and on no
    other key. *)
Lemma first_failure_after_seed_calls_expire cb s (t0 : Timeout) :
  flag_set cb s = false ->
  should_increase_failure_count (rule cb) = true ->
  store s !! Some (failure_cache_key (rule cb)) = Some (Entry 0 t0) ->
  forall k t,
    In (CacheExpire k t) (emitted (_increase_failure_count cb) s)
    <-> k = Some (failure_cache_key (rule cb)) /\ t = failure_timeout cb.
Proof.
  intros Hclosed Hfail Hseed k t.
  rewrite _increase_failure_count_emitted. unfold failure_accounting_calls.
  rewrite Hclosed, Hfail. cbn [orb negb].
  unfold incr_calls, request_read_calls, counter, Store.get.
  rewrite Hseed. simpl.
  destruct (key_truthy (request_cache_key (rule cb))); simpl;
    split; intros H;
    repeat (destruct H as [H|H]; try discriminate H);
    try (by injection H as <- <-); try done;
    destruct H as [-> ->]; right; right; by left.
Qed.

End FailedExit.

Lemma failed_exit_trips_iff_policy_opens_witness :
  catch_exceptions count_breaker "ValueError"%string = true
  /\ __aexit__ count_breaker (Some "ValueError"%string) two_failures
     = (Raise "CircuitOpen"%string,
        snd ((open_circuit count_breaker ;; _notify_max_failures_exceeded)
               (totals_read count_breaker
                  (accounted count_breaker two_failures))))
  /\ flag_set count_breaker
       (snd (__aexit__ count_breaker (Some "ValueError"%string) two_failures))
     = true.
Proof.
  split; [reflexivity|].
  pose proof (failed_exit_trips_iff_policy_opens (R := Z) count_breaker
                "ValueError"%string two_failures eq_refl) as H.
  cbv zeta in H.
  destruct H as (_ & _ & H & _ & _ & _ & _ & _ & Hopen & _).
  split; [rewrite H; reflexivity|].
  destruct (Hopen eq_refl) as (_ & _ & Hflag).
  apply Hflag; discriminate.
Defined.
